(** * llana: the authentication engine and the update-by-id pipeline

    A shallow embedding of [src/helpers/Authentication.ts] (the method
    [Authentication.auth]) and of the PUT controller ([PutController.updateById]),
    with the properties of the specification that concern them.

    The injected services (schema resolver, query engine, role authorizer, JWT
    service, configuration) are not part of the sources.  They are modelled as
    oracles over an abstract world state [W]: every awaited call takes the
    current world, settles to a value or to a rejection, and leaves a new
    world.  Every awaited call is also recorded, with what it settled to, in
    the list of events the run emits, so that "this lookup was (not)
    performed" is a statement about that list. *)

From Stdlib Require Import String Ascii ZArith List Bool.
From stdpp Require Import base gmap strings list.

Local Open Scope string_scope.
Local Open Scope list_scope.

(** ** JavaScript values *)

(** The values that flow through request bodies, query strings and fetched
    rows.  Numbers are restricted to integers; an object is a finite map from
    property names to values. *)
#[warnings="-register-all"]
Inductive JsVal : Type :=
| JUndefined
| JNull
| JBool (b : bool)
| JNum (z : Z)
| JStr (s : string)
| JObj (properties : gmap string JsVal).

(** A row, a request body, a token payload: a plain object. *)
Abbreviation Row := (gmap string JsVal).

(** [o[k]]: reading a property that is absent gives [undefined]. *)
Definition prop (o : Row) (k : string) : JsVal :=
  match o !! k with
  | Some v => v
  | None => JUndefined
  end.

(** ToBoolean: what [if (v)] and [!v] test. *)
Definition truthy (v : JsVal) : bool :=
  match v with
  | JUndefined | JNull => false
  | JBool b => b
  | JNum z => negb (z =? 0)%Z
  | JStr s => negb (String.eqb s "")
  | JObj _ => true
  end.

(** [a === b].  Primitives are compared by value.  Objects are compared by
    reference, and the two sides of the only comparison in the sources come
    from different places (a fetched row and the request), so two objects are
    never identical there. *)
Definition strict_equal (a b : JsVal) : bool :=
  match a, b with
  | JUndefined, JUndefined => true
  | JNull, JNull => true
  | JBool x, JBool y => Bool.eqb x y
  | JNum x, JNum y => (x =? y)%Z
  | JStr x, JStr y => String.eqb x y
  | _, _ => false
  end.

(** [!a && b]: the value of the expression, not only its truth. *)
Definition not_and (a b : JsVal) : JsVal :=
  if truthy a then JBool false else b.

(** An optional string property is falsy when absent and when empty. *)
Definition present (o : option string) : option string :=
  match o with
  | Some s => if String.eqb s "" then None else Some s
  | None => None
  end.

(** [s.includes(sub)] *)
Fixpoint str_includes (s sub : string) : bool :=
  if String.prefix sub s then true
  else match s with
       | EmptyString => false
       | String _ s' => str_includes s' sub
       end.

(** [s.split(sep)] for a one-character separator. *)
Fixpoint split (sep : ascii) (s : string) : list string :=
  match s with
  | EmptyString => [EmptyString]
  | String c s' =>
      if Ascii.eqb c sep then EmptyString :: split sep s'
      else match split sep s' with
           | piece :: pieces => String c piece :: pieces
           | [] => [String c EmptyString]
           end
  end.

(** ** Types shared by the helpers ([types/database.types], [types/auth.types]) *)

Module WhereOperator.
Inductive t := equals | null.
End WhereOperator.

Module QueryPerform.
Inductive t := FIND | FIND_ONE | FIND_MANY | UNIQUE | CREATE | UPDATE | DELETE.
End QueryPerform.

Module AuthType.
Inductive t := APIKEY | JWT.
(** The enum member as it is written into a where-clause value. *)
Definition value (ty : t) : JsVal :=
  match ty with
  | APIKEY => JStr "APIKEY"
  | JWT => JStr "JWT"
  end.
End AuthType.

Module AuthLocation.
Inductive t := HEADER | QUERY | BODY.
End AuthLocation.

Module RolePermission.
Inductive t := READ | WRITE | DELETE.
End RolePermission.

(** Modelled from the spec: [DatabaseSchema] is declared in
    [types/database.types], which is not part of the sources.  "Schema:
    identifies a table; holds an ordered set of columns, exactly one
    primary-key column".  The helpers read [primary_key] only. *)
Record DatabaseSchema := {
  schema_table : string;
  primary_key : string;
  schema_columns : list string
}.

(** [{ column, operator, value }] *)
Record DatabaseWhere := {
  w_column : string;
  w_operator : WhereOperator.t;
  w_value : option JsVal
}.

(** A relation descriptor; [auth] compares relations by [table]. *)
Record DatabaseRelations := {
  rel_table : string;
  rel_join : string
}.

(** [AuthRestrictionsResponse]: [{ valid, message?, user_identifier? }] *)
Record AuthRestrictionsResponse := {
  valid : bool;
  message : option string;
  user_identifier : option JsVal
}.

(** The request, as far as the helpers read it. *)
Record Request := {
  originalUrl : string;
  headers : gmap string string;
  query : Row;
  body : Row
}.

(** [req.headers[name]] *)
Definition header (req : Request) (name : string) : JsVal :=
  match headers req !! name with
  | Some s => JStr s
  | None => JUndefined
  end.

(** Modelled from the spec: [findDotNotation] lives in [utils/Find], which is
    not part of the sources.  The spec speaks of "composite/relational field
    paths (dot notation)" and of "a field on a related table": the path is
    cut at the dots and followed through the nested objects of the row.  The
    theorems below take [findDotNotation] as a parameter; this definition is
    used where a run is evaluated on concrete data. *)
Fixpoint follow (path : list string) (v : JsVal) : JsVal :=
  match path with
  | [] => v
  | key :: rest =>
      match v with
      | JObj o => follow rest (prop o key)
      | _ => JUndefined
      end
  end.

Definition find_dot_path (row : Row) (path : string) : JsVal :=
  follow (split "."%char path) (JObj row).

(** ** Awaited calls, early returns and the event log *)

(** What a promise settles to. *)
Inductive Settled (A : Type) : Type :=
| Resolved (a : A)
| Rejected (reason : string).
Arguments Resolved {A} a.
Arguments Rejected {A} reason.

(** How a piece of a method body ends: it falls through with a value, it
    executes [return r], or an exception escapes it. *)
Inductive Outcome (R A : Type) : Type :=
| Next (a : A)
| Return_ (r : R)
| Throw (reason : string).
Arguments Next {R A} a.
Arguments Return_ {R A} r.
Arguments Throw {R A} reason.

(** A computation over the world [W] that emits events of type [E]. *)
Definition Run (W E R A : Type) : Type := W -> Outcome R A * W * list E.

Definition ret {W E R A} (a : A) : Run W E R A :=
  fun w => (Next a, w, []).

Definition return_ {W E R A} (r : R) : Run W E R A :=
  fun w => (Return_ r, w, []).

Definition throw {W E R A} (reason : string) : Run W E R A :=
  fun w => (Throw reason, w, []).

Definition bind {W E R A B} (m : Run W E R A) (k : A -> Run W E R B) : Run W E R B :=
  fun w =>
    match m w with
    | (Next a, w1, evs1) =>
        match k a w1 with
        | (o, w2, evs2) => (o, w2, evs1 ++ evs2)
        end
    | (Return_ r, w1, evs1) => (Return_ r, w1, evs1)
    | (Throw reason, w1, evs1) => (Throw reason, w1, evs1)
    end.

Notation "'let*' x ':=' m 'in' k" := (bind m (fun x => k))
  (at level 10, x name, m at level 100, k at level 200).

(** The piece ends the way [o] says, with no call made. *)
Definition finish {W E R A} (o : Outcome R A) : Run W E R A :=
  fun w => (o, w, []).

(** [try { await f } catch]: the call is logged with what it settled to, and
    the settlement is handed to the caller. *)
Definition try_await {W E R A} (ev : Settled A -> E) (f : W -> Settled A * W)
  : Run W E R (Settled A) :=
  fun w => match f w with (s, w1) => (Next s, w1, [ev s]) end.

(** [await f] outside any [try]: a rejection escapes as an exception. *)
Definition await {W E R A} (ev : Settled A -> E) (f : W -> Settled A * W)
  : Run W E R A :=
  let* s := try_await ev f in
  match s with
  | Resolved a => ret a
  | Rejected reason => throw reason
  end.

(** What the caller of an async method observes. *)
Definition settle {W E R} (m : Run W E R R) : W -> Settled R * W * list E :=
  fun w =>
    match m w with
    | (Next r, w1, evs) => (Resolved r, w1, evs)
    | (Return_ r, w1, evs) => (Resolved r, w1, evs)
    | (Throw reason, w1, evs) => (Rejected reason, w1, evs)
    end.

(** ** [helpers/Authentication.ts] *)

Module Authentication.

(** [auth.table]: the lookup table of a rule ([AuthAPIKey] for API keys). *)
Record AuthTable := {
  table_name : string;
  identity_column : option string;
  column : option string
}.

(** One entry of the ordered [auth] configuration. *)
Record Auth := {
  type : option AuthType.t;
  location : option AuthLocation.t;
  name : option string;
  table : AuthTable
}.

(** A row of [LLANA_AUTH_TABLE], as far as [auth] reads it: [rule.exclude]
    (tested for truth) and [rule.table]. *)
Record AuthRouteRule := {
  exclude : bool;
  rule_table : string
}.

(** What [schema.validateFields] resolves to.  [fields] and [relations] may
    be missing from the object, and iterating over them then throws. *)
Record ValidateFieldsResponse := {
  vf_valid : bool;
  vf_message : option string;
  vf_fields : option (list string);
  vf_relations : option (list DatabaseRelations)
}.

(** [{ schema, where }] handed to [FIND_MANY]. *)
Record DatabaseFindManyOptions := {
  fm_schema : DatabaseSchema;
  fm_where : list DatabaseWhere
}.

(** [DatabaseFindOneOptions]: [{ schema, fields, where, relations }]. *)
Record DatabaseFindOneOptions := {
  fo_schema : DatabaseSchema;
  fo_fields : list string;
  fo_where : list DatabaseWhere;
  fo_relations : list DatabaseRelations
}.

(** The awaited calls of [auth], each with what it settled to. *)
Inductive Event : Type :=
| EvGetSchema (table : string) (res : Settled DatabaseSchema)
| EvFindMany (options : DatabaseFindManyOptions) (res : Settled (list AuthRouteRule))
| EvValidateFields (schema : DatabaseSchema) (field : string)
    (res : Settled ValidateFieldsResponse)
| EvFind (options : DatabaseFindOneOptions) (res : Settled (option Row))
| EvVerify (token : string) (secret : JsVal) (res : Settled Row).

(** The collaborators injected into [Authentication], the configuration it
    reads, and the helpers it imports.  Calls to the logger are left out: they
    do not influence the result. *)
Record Services (W : Type) := {
  LLANA_AUTH_TABLE : string;
  Env_IsTest : bool;
  config_auth : option (list Auth);
  config_soft : option string;
  config_jwt : option Row;
  schema_getSchema : string -> W -> Settled DatabaseSchema * W;
  schema_validateFields :
    DatabaseSchema -> string -> W -> Settled ValidateFieldsResponse * W;
  query_FIND_MANY :
    DatabaseFindManyOptions -> W -> Settled (list AuthRouteRule) * W;
  query_FIND : DatabaseFindOneOptions -> W -> Settled (option Row) * W;
  jwtService_verifyAsync : string -> JsVal -> W -> Settled Row * W;
  findDotNotation : Row -> string -> JsVal
}.
Arguments LLANA_AUTH_TABLE {W} _.
Arguments Env_IsTest {W} _.
Arguments config_auth {W} _.
Arguments config_soft {W} _.
Arguments config_jwt {W} _.
Arguments schema_getSchema {W} _ _ _.
Arguments schema_validateFields {W} _ _ _ _.
Arguments query_FIND_MANY {W} _ _ _.
Arguments query_FIND {W} _ _ _.
Arguments jwtService_verifyAsync {W} _ _ _ _.
Arguments findDotNotation {W} _ _ _.

(** [{ valid: false, message }] *)
Definition failed (msg : string) : AuthRestrictionsResponse :=
  {| valid := false; message := Some msg; user_identifier := None |}.

(** [{ valid: true }] *)
Definition passed : AuthRestrictionsResponse :=
  {| valid := true; message := None; user_identifier := None |}.

(** [{ valid: true, user_identifier }] *)
Definition identified (id : JsVal) : AuthRestrictionsResponse :=
  {| valid := true; message := None; user_identifier := Some id |}.

(** Lines 58-88: is the restriction required on the current route?  Both
    lists are filtered on [rule.exclude], as in the source. *)
Definition check_required (url : string) (rules : list AuthRouteRule) : bool :=
  let excludes := List.filter (fun rule => exclude rule) rules in
  let includes := List.filter (fun rule => exclude rule) rules in
  let check_required := true in
  let check_required :=
    fold_left (fun required exclude =>
                 if str_includes url (rule_table exclude) then false else required)
              excludes check_required in
  fold_left (fun required include =>
               if str_includes url (rule_table include) then true else required)
            includes check_required.

(** Does the URL contain the table of this row of the auth table? *)
Definition on_route (url : string) (rule : AuthRouteRule) : bool :=
  str_includes url (rule_table rule).

(** Lines 227-231: [if (!options.fields.includes(field)) options.fields.push(field)] *)
Definition push_field (fields : list string) (field : string) : list string :=
  if existsb (String.eqb field) fields then fields else fields ++ [field].

(** Lines 233-237: a relation is pushed unless one for the same table is there. *)
Definition push_relation (relations : list DatabaseRelations) (relation : DatabaseRelations)
  : list DatabaseRelations :=
  if existsb (fun r => String.eqb (rel_table r) (rel_table relation)) relations
  then relations else relations ++ [relation].

(** [req.headers['authorization']?.split(' ')[1]] *)
Definition bearer_token (req : Request) : option string :=
  match headers req !! "authorization" with
  | Some h => split " "%char h !! 1%nat
  | None => None
  end.

(** Lines 102-106: the configured identity column, else the primary key. *)
Definition identity_column_of (auth : Auth) (schema : DatabaseSchema) : string :=
  match present (identity_column (table auth)) with
  | Some configured => configured
  | None => primary_key schema
  end.

(** Where the key of an API-key rule is read from. *)
Definition request_value (req : Request) (loc : AuthLocation.t) (name : string) : JsVal :=
  match loc with
  | AuthLocation.HEADER => header req name
  | AuthLocation.QUERY => prop (query req) name
  | AuthLocation.BODY => prop (body req) name
  end.

Section Auth.
Context {W : Type}.
Variable svc : Services W.

(** A piece of the body of [auth]. *)
Local Abbreviation Step := (Run W Event AuthRestrictionsResponse AuthRestrictionsResponse).

(** Lines 203-244: the options of the lookup.  The field
    [table.identity_column] and the where-clause on the matching column are
    there from the start; the fields and relations that [validateFields]
    resolved are merged in, and so is the soft-delete filter when one is
    configured. *)
Definition find_options (auth : Auth) (schema : DatabaseSchema)
    (identity_column column : string) (req_api_key : JsVal)
    (fields : list string) (relations : list DatabaseRelations)
  : DatabaseFindOneOptions :=
  let options :=
    {| fo_schema := schema;
       fo_fields := [table_name (table auth) +:+ "." +:+ identity_column];
       fo_where := [ {| w_column := column;
                        w_operator := WhereOperator.equals;
                        w_value := Some req_api_key |} ];
       fo_relations := [] |} in
  {| fo_schema := fo_schema options;
     fo_fields := fold_left push_field fields (fo_fields options);
     fo_where :=
       match present (config_soft svc) with
       | Some soft =>
           fo_where options ++
             [ {| w_column := soft;
                  w_operator := WhereOperator.null;
                  w_value := None |} ]
       | None => fo_where options
       end;
     fo_relations := fold_left push_relation relations (fo_relations options) |}.

(** Lines 248-280: what the fetched [result] decides.
    [(!result[column] && findDotNotation(result, column)) !== req_api_key]
    is read as the source parenthesises it. *)
Definition key_verdict (column identity_column : string) (req_api_key : JsVal)
    (result : option Row)
  : Outcome AuthRestrictionsResponse AuthRestrictionsResponse :=
  match result with
  | None => Return_ (failed "Unauthorized")
  | Some row =>
      if negb (strict_equal
                 (not_and (prop row column) (findDotNotation svc row column))
                 req_api_key)
      then Return_ (failed "Unauthorized")
      else if negb (truthy (prop row identity_column))
      then Return_ (failed ("System configuration error: Identity column "
                              +:+ identity_column +:+ " not found"))
      else Next (identified (prop row identity_column))
  end.

(** Lines 171-280: the API-key rule once [req_api_key] has been read.
    [continue] and the [break] that ends the case are [ret]: the loop goes
    on with the new [auth_passed]. *)
Definition api_key_lookup (auth : Auth) (schema : DatabaseSchema)
    (identity_column : string) (req_api_key : JsVal)
    (auth_passed : AuthRestrictionsResponse) : Step :=
  if Env_IsTest svc then ret passed
  else
    let api_key_config := table auth in
    if String.eqb (table_name api_key_config) "" then
      ret (failed "System configuration error: API Key lookup table not found")
    else
      match present (column api_key_config) with
      | None =>
          ret (failed "System configuration error: API Key lookup column not found")
      | Some column =>
          let* validated :=
            await (EvValidateFields schema column)
                  (schema_validateFields svc schema column) in
          (* assigned and never read: every path below returns or assigns again *)
          let auth_passed :=
            if vf_valid validated then auth_passed
            else {| valid := false; message := vf_message validated;
                    user_identifier := None |} in
          match vf_fields validated with
          | None => throw "TypeError: fields is not iterable"
          | Some fields =>
              match vf_relations validated with
              | None => throw "TypeError: relations is not iterable"
              | Some relations =>
                  let options :=
                    find_options auth schema identity_column column req_api_key
                                 fields relations in
                  let* result := await (EvFind options) (query_FIND svc options) in
                  finish (key_verdict column identity_column req_api_key result)
              end
          end
      end.

(** Lines 110-169: the name and the location of the key, and the key. *)
Definition api_key (req : Request) (auth : Auth) (schema : DatabaseSchema)
    (identity_column : string) (auth_passed : AuthRestrictionsResponse) : Step :=
  match present (name auth) with
  | None => ret (failed "System configuration error: API key name required")
  | Some name =>
      match location auth with
      | None => ret (failed "System configuration error: API key location required")
      | Some loc =>
          let check req_api_key :=
            if negb (truthy req_api_key) then ret (failed "API key required")
            else api_key_lookup auth schema identity_column req_api_key auth_passed in
          match loc with
          | AuthLocation.HEADER =>
              if negb (truthy (header req name))
              then ret (failed ("API key header " +:+ name +:+ " required"))
              else check (header req name)
          | AuthLocation.QUERY =>
              if negb (truthy (prop (query req) name))
              then ret (failed ("API key query " +:+ name +:+ " required"))
              else check (prop (query req) name)
          | AuthLocation.BODY =>
              if negb (truthy (prop (body req) name))
              then ret (failed ("API key body " +:+ name +:+ " required"))
              else check (prop (body req) name)
          end
      end
  end.

(** Lines 283-311: the token rule.  [jwt_config.secret] is evaluated inside
    the [try], so a missing [jwt] configuration is caught like a failed
    verification. *)
Definition jwt (req : Request) : Step :=
  match present (bearer_token req) with
  | None => ret (failed "JWT token required")
  | Some jwt_token =>
      match config_jwt svc with
      | None => ret (failed "JWT Authentication Failed")
      | Some jwt_config =>
          let secret := prop jwt_config "secret" in
          let* verified :=
            try_await (EvVerify jwt_token secret)
                      (jwtService_verifyAsync svc jwt_token secret) in
          match verified with
          | Resolved payload => ret (identified (prop payload "sub"))
          | Rejected _ => ret (failed "JWT Authentication Failed")
          end
      end
  end.

(** Lines 47-312: one turn of the loop over the configured rules. *)
Definition auth_rule (req : Request) (auth_schema : DatabaseSchema) (auth : Auth)
    (auth_passed : AuthRestrictionsResponse) : Step :=
  if valid auth_passed then ret auth_passed
  else
    match type auth with
    | None => ret (failed "System configuration error: Restriction type required")
    | Some ty =>
        let options :=
          {| fm_schema := auth_schema;
             fm_where := [ {| w_column := "auth";
                              w_operator := WhereOperator.equals;
                              w_value := Some (AuthType.value ty) |} ] |} in
        let* rules := await (EvFindMany options) (query_FIND_MANY svc options) in
        if negb (check_required (originalUrl req) rules) then ret auth_passed
        else
          let* resolved :=
            try_await (EvGetSchema (table_name (table auth)))
                      (schema_getSchema svc (table_name (table auth))) in
          match resolved with
          | Rejected _ =>
              return_ (failed ("No Schema Found For Table "
                                 +:+ table_name (table auth)))
          | Resolved schema =>
              let identity_column := identity_column_of auth schema in
              match ty with
              | AuthType.APIKEY => api_key req auth schema identity_column auth_passed
              | AuthType.JWT => jwt req
              end
          end
    end.

(** Line 46: [for (const auth of authentications)]. *)
Fixpoint auth_loop (req : Request) (auth_schema : DatabaseSchema)
    (authentications : list Auth) (auth_passed : AuthRestrictionsResponse) : Step :=
  match authentications with
  | [] => ret auth_passed
  | auth :: rest =>
      let* auth_passed := auth_rule req auth_schema auth auth_passed in
      auth_loop req auth_schema rest auth_passed
  end.

(** Lines 30-316: [async auth(req)]. *)
Definition auth (req : Request) : W -> Settled AuthRestrictionsResponse * W * list Event :=
  settle
    match config_auth svc with
    | None => return_ passed
    | Some authentications =>
        let* auth_schema :=
          await (EvGetSchema (LLANA_AUTH_TABLE svc))
                (schema_getSchema svc (LLANA_AUTH_TABLE svc)) in
        auth_loop req auth_schema authentications (failed "Unauthorized")
    end.

End Auth.

(** *** Vocabulary for the properties of [auth] *)

(** The word the "required" message uses for a location (lines 133, 144, 155). *)
Definition location_word (loc : AuthLocation.t) : string :=
  match loc with
  | AuthLocation.HEADER => "header"
  | AuthLocation.QUERY => "query"
  | AuthLocation.BODY => "body"
  end.

(** The calls whose rejection [auth] does not catch: [FIND_MANY],
    [validateFields] and [FIND] are awaited outside any [try]. *)
Definition uncaught (e : Event) : option string :=
  match e with
  | EvFindMany _ (Rejected reason) => Some reason
  | EvValidateFields _ _ (Rejected reason) => Some reason
  | EvFind _ (Rejected reason) => Some reason
  | _ => None
  end.

(** A lookup: a call that reads the lookup table of an API-key rule. *)
Definition is_lookup (e : Event) : bool :=
  match e with
  | EvValidateFields _ _ _ | EvFind _ _ => true
  | _ => false
  end.

(** The string has no blank in it. *)
Fixpoint spaceless (s : string) : bool :=
  match s with
  | EmptyString => true
  | String c s' => negb (Ascii.eqb c " "%char) && spaceless s'
  end.

End Authentication.

(** ** The PUT controller: [updateById] *)

Module PutController.

(** The argument of [roles.tablePermission]. *)
Record TablePermissionOptions := {
  tp_identifier : JsVal;
  tp_table : string;
  tp_access : RolePermission.t;
  tp_x_request_id : option string
}.

(** [AuthTablePermissionSuccessResponse | AuthTablePermissionFailResponse] *)
Record TablePermissionResponse := {
  p_valid : bool;
  p_message : option string;
  p_restriction : option DatabaseWhere
}.

(** What [schema.validateData] resolves to. *)
Record ValidateResponse := {
  v_valid : bool;
  v_message : option string;
  v_instance : option Row
}.

(** [IsUniqueResponse] *)
Record IsUniqueResponse := {
  u_valid : bool;
  u_message : option string
}.

(** The payloads handed to [query.perform] with each verb. *)
Record UniqueOptions := {
  uo_schema : DatabaseSchema;
  uo_data : Row;
  uo_id : string
}.

Record FindOneOptions := {
  fo_schema : DatabaseSchema;
  fo_where : list DatabaseWhere
}.

Record UpdateOptions := {
  up_id : string;
  up_schema : DatabaseSchema;
  up_data : option Row
}.

(** The awaited calls of [updateById], each with what it settled to. *)
Inductive Event : Type :=
| EvGetSchema (table : string) (x_request_id : option string)
    (res : Settled DatabaseSchema)
| EvAuth (req : Request) (x_request_id : option string)
    (res : Settled AuthRestrictionsResponse)
| EvTablePermission (options : TablePermissionOptions)
    (res : Settled TablePermissionResponse)
| EvValidateData (schema : DatabaseSchema) (data : Row) (res : Settled ValidateResponse)
| EvUnique (options : UniqueOptions) (x_request_id : option string)
    (res : Settled IsUniqueResponse)
| EvFindOne (options : FindOneOptions) (x_request_id : option string)
    (res : Settled (option Row))
| EvUpdate (options : UpdateOptions) (x_request_id : option string)
    (res : Settled Row).

(** What is sent: [this.response.text(message)] or the updated row. *)
Inductive Body : Type :=
| Text (message : option string)
| Json (row : Row).

(** [res.status(status).send(sent)] *)
Record HttpResponse := {
  status : nat;
  sent : Body
}.

(** The collaborators injected into the controller.  [authentication.auth]
    is one of them: the controller calls it with [{ req, x_request_id }] and
    reads [valid], [message] and [user_identifier] from what it resolves to. *)
Record Services (W : Type) := {
  UrlToTable : string -> nat -> string;
  schema_getSchema : string -> option string -> W -> Settled DatabaseSchema * W;
  schema_getPrimaryKey : DatabaseSchema -> option string;
  schema_validateData : DatabaseSchema -> Row -> W -> Settled ValidateResponse * W;
  authentication_auth :
    Request -> option string -> W -> Settled AuthRestrictionsResponse * W;
  roles_tablePermission :
    TablePermissionOptions -> W -> Settled TablePermissionResponse * W;
  query_UNIQUE : UniqueOptions -> option string -> W -> Settled IsUniqueResponse * W;
  query_FIND_ONE : FindOneOptions -> option string -> W -> Settled (option Row) * W;
  query_UPDATE : UpdateOptions -> option string -> W -> Settled Row * W
}.
Arguments UrlToTable {W} _ _ _.
Arguments schema_getSchema {W} _ _ _ _.
Arguments schema_getPrimaryKey {W} _ _.
Arguments schema_validateData {W} _ _ _ _.
Arguments authentication_auth {W} _ _ _ _.
Arguments roles_tablePermission {W} _ _ _.
Arguments query_UNIQUE {W} _ _ _ _.
Arguments query_FIND_ONE {W} _ _ _ _.
Arguments query_UPDATE {W} _ _ _ _.

(** [if (auth.user_identifier)]: the identifier, when it is there and truthy. *)
Definition identifier_of (auth : AuthRestrictionsResponse) : option JsVal :=
  match user_identifier auth with
  | Some identifier => if truthy identifier then Some identifier else None
  | None => None
  end.

Section UpdateById.
Context {W : Type}.
Variable svc : Services W.

Local Abbreviation Step A := (Run W Event HttpResponse A).

(** Lines 51-68: the role check, giving [role_where]. *)
Definition role_check (auth : AuthRestrictionsResponse) (table_name : string)
    (x_request_id : option string) : Step (list DatabaseWhere) :=
  let role_where := [] in
  match identifier_of auth with
  | None => ret role_where
  | Some identifier =>
      let options :=
        {| tp_identifier := identifier;
           tp_table := table_name;
           tp_access := RolePermission.WRITE;
           tp_x_request_id := x_request_id |} in
      let* permission :=
        await (EvTablePermission options) (roles_tablePermission svc options) in
      if negb (p_valid permission)
      then return_ {| status := 401; sent := Text (p_message permission) |}
      else
        match p_restriction permission with
        | Some restriction => ret (role_where ++ [restriction])
        | None => ret role_where
        end
  end.

(** Lines 26-144. *)
Definition updateById (req : Request) (id : string)
  : W -> Settled HttpResponse * W * list Event :=
  settle
    (let x_request_id := headers req !! "x-request-id" in
     let table_name := UrlToTable svc (originalUrl req) 1 in
     let body := body req in
     let* resolved :=
       try_await (EvGetSchema table_name x_request_id)
                 (schema_getSchema svc table_name x_request_id) in
     match resolved with
     | Rejected e => return_ {| status := 404; sent := Text (Some e) |}
     | Resolved schema =>
         let* auth :=
           await (EvAuth req x_request_id) (authentication_auth svc req x_request_id) in
         if negb (valid auth)
         then return_ {| status := 401; sent := Text (message auth) |}
         else
           let* role_where := role_check auth table_name x_request_id in
           let* validate :=
             await (EvValidateData schema body) (schema_validateData svc schema body) in
           if negb (v_valid validate)
           then return_ {| status := 400; sent := Text (v_message validate) |}
           else
             match present (schema_getPrimaryKey svc schema) with
             | None =>
                 return_ {| status := 400;
                            sent := Text (Some ("No primary key found for table "
                                                  +:+ table_name)) |}
             | Some primary_key =>
                 let key : Row := {[ primary_key := JStr id ]} in
                 let* validateKey :=
                   await (EvValidateData schema key)
                         (schema_validateData svc schema key) in
                 if negb (v_valid validateKey)
                 then return_ {| status := 400; sent := Text (v_message validateKey) |}
                 else
                   let unique :=
                     {| uo_schema := schema; uo_data := body; uo_id := id |} in
                   let* uniqueValidation :=
                     await (EvUnique unique x_request_id)
                           (query_UNIQUE svc unique x_request_id) in
                   if negb (u_valid uniqueValidation)
                   then return_ {| status := 400;
                                   sent := Text (u_message uniqueValidation) |}
                   else
                     let where_ :=
                       [ {| w_column := primary_key;
                            w_operator := WhereOperator.equals;
                            w_value := Some (JStr id) |} ] in
                     (* [where.concat(role_where)] evaluates to a new array
                        and leaves [where] as it is; the value is dropped *)
                     let dropped :=
                       if (0 <? length role_where)%nat
                       then Some (where_ ++ role_where) else None in
                     let find := {| fo_schema := schema; fo_where := where_ |} in
                     let* record :=
                       await (EvFindOne find x_request_id)
                             (query_FIND_ONE svc find x_request_id) in
                     match record with
                     | None =>
                         return_ {| status := 400;
                                    sent := Text (Some ("Record with id " +:+ id
                                                          +:+ " not found")) |}
                     | Some _ =>
                         let update :=
                           {| up_id := id; up_schema := schema;
                              up_data := v_instance validate |} in
                         let* updated :=
                           try_await (EvUpdate update x_request_id)
                                     (query_UPDATE svc update x_request_id) in
                         match updated with
                         | Resolved row => return_ {| status := 200; sent := Json row |}
                         | Rejected e =>
                             return_ {| status := 400; sent := Text (Some e) |}
                         end
                     end
             end
     end).

End UpdateById.

(** The stages of the pipeline, in the order the specification lists them. *)
Inductive Stage : Type :=
| SchemaResolution
| AuthenticationStage
| RoleAuthorization
| DataValidation
| UniquenessCheck
| ExistenceCheck
| Mutation.

(** The stage an awaited call belongs to. *)
Definition stage_of (e : Event) : Stage :=
  match e with
  | EvGetSchema _ _ _ => SchemaResolution
  | EvAuth _ _ _ => AuthenticationStage
  | EvTablePermission _ _ => RoleAuthorization
  | EvValidateData _ _ _ => DataValidation
  | EvUnique _ _ _ => UniquenessCheck
  | EvFindOne _ _ _ => ExistenceCheck
  | EvUpdate _ _ _ => Mutation
  end.


(** A call that fails its stage: it rejects, or it settles to an invalid
    result, or (the existence check) to no record. *)
Definition fails (e : Event) : bool :=
  match e with
  | EvGetSchema _ _ (Resolved _) => false
  | EvAuth _ _ (Resolved auth) => negb (valid auth)
  | EvTablePermission _ (Resolved permission) => negb (p_valid permission)
  | EvValidateData _ _ (Resolved validate) => negb (v_valid validate)
  | EvUnique _ _ (Resolved unique) => negb (u_valid unique)
  | EvFindOne _ _ (Resolved (Some _)) => false
  | EvFindOne _ _ (Resolved None) => true
  | EvUpdate _ _ (Resolved _) => false
  | _ => true
  end.

(** The calls that go to the Query Engine. *)
Definition is_query (e : Event) : bool :=
  match e with
  | EvUnique _ _ _ | EvFindOne _ _ _ | EvUpdate _ _ _ => true
  | _ => false
  end.

(** *** Vocabulary for the properties of [updateById] *)

(** What the controller answers when a call fails its stage and the failure
    is handled: the status and the text of each [return res.status(..)] of
    lines 41-142, read off the failing call. *)
Definition answer_of_failure (id : string) (e : Event) : option HttpResponse :=
  match e with
  | EvGetSchema _ _ (Rejected reason) =>
      Some {| status := 404; sent := Text (Some reason) |}
  | EvAuth _ _ (Resolved auth) =>
      Some {| status := 401; sent := Text (message auth) |}
  | EvTablePermission _ (Resolved permission) =>
      Some {| status := 401; sent := Text (p_message permission) |}
  | EvValidateData _ _ (Resolved validate) =>
      Some {| status := 400; sent := Text (v_message validate) |}
  | EvUnique _ _ (Resolved unique) =>
      Some {| status := 400; sent := Text (u_message unique) |}
  | EvFindOne _ _ (Resolved _) =>
      Some {| status := 400;
              sent := Text (Some ("Record with id " +:+ id +:+ " not found")) |}
  | EvUpdate _ _ (Rejected reason) =>
      Some {| status := 400; sent := Text (Some reason) |}
  | _ => None
  end.

(** The calls whose rejection the controller does not catch: only
    [getSchema] and the [UPDATE] sit in a [try]. *)
Definition uncaught (e : Event) : option string :=
  match e with
  | EvAuth _ _ (Rejected reason) => Some reason
  | EvTablePermission _ (Rejected reason) => Some reason
  | EvValidateData _ _ (Rejected reason) => Some reason
  | EvUnique _ _ (Rejected reason) => Some reason
  | EvFindOne _ _ (Rejected reason) => Some reason
  | _ => None
  end.

(** The schema a call is made with, and the request id it is tagged with. *)
Definition schema_of (e : Event) : option DatabaseSchema :=
  match e with
  | EvValidateData schema _ _ => Some schema
  | EvUnique options _ _ => Some (uo_schema options)
  | EvFindOne options _ _ => Some (fo_schema options)
  | EvUpdate options _ _ => Some (up_schema options)
  | _ => None
  end.

Definition request_id_of (e : Event) : option (option string) :=
  match e with
  | EvGetSchema _ x _ | EvAuth _ x _ | EvUnique _ x _ | EvFindOne _ x _
  | EvUpdate _ x _ => Some x
  | EvTablePermission options _ => Some (tp_x_request_id options)
  | EvValidateData _ _ _ => None
  end.


End PutController.

(** ** Concrete services and requests

    A world that counts the calls made to it, a [users] table, and services
    whose answers are fixed by a few parameters. *)

Module Scenario.

Definition users : DatabaseSchema :=
  {| schema_table := "users"; primary_key := "id";
     schema_columns := ["id"; "email"] |}.

Definition auth_table : DatabaseSchema :=
  {| schema_table := "_llana_auth"; primary_key := "id";
     schema_columns := ["id"; "auth"; "table"; "exclude"] |}.

(** A request for [/users/42] with the given headers. *)
Definition request (hs : gmap string string) : Request :=
  {| originalUrl := "/users/42"; headers := hs; query := ∅;
     body := {[ "email" := JStr "a@b.com" ]} |}.

Definition api_key_rule : Authentication.Auth :=
  {| Authentication.type := Some AuthType.APIKEY;
     Authentication.location := Some AuthLocation.HEADER;
     Authentication.name := Some "x-api-key";
     Authentication.table :=
       {| Authentication.table_name := "users";
          Authentication.identity_column := Some "id";
          Authentication.column := Some "UserApiKey.apiKey" |} |}.

Definition jwt_rule : Authentication.Auth :=
  {| Authentication.type := Some AuthType.JWT;
     Authentication.location := None;
     Authentication.name := None;
     Authentication.table :=
       {| Authentication.table_name := "users";
          Authentication.identity_column := None;
          Authentication.column := None |} |}.

(** The collaborators of [Authentication]: [route_rules] are the rows of the
    auth table, [found] is what every [FIND] fetches, and the only token that
    verifies is [good], for the subject 7. *)
Definition auth_services (is_test : bool) (configured : option (list Authentication.Auth))
    (route_rules : list Authentication.AuthRouteRule) (found : option Row)
  : Authentication.Services nat :=
  {| Authentication.LLANA_AUTH_TABLE := "_llana_auth";
     Authentication.Env_IsTest := is_test;
     Authentication.config_auth := configured;
     Authentication.config_soft := None;
     Authentication.config_jwt := Some {[ "secret" := JStr "s3cret" ]};
     Authentication.schema_getSchema := fun table w =>
       (if String.eqb table "users" then Resolved users
        else if String.eqb table "_llana_auth" then Resolved auth_table
        else Rejected "Table not found", S w);
     Authentication.schema_validateFields := fun _ field w =>
       (Resolved {| Authentication.vf_valid := true;
                    Authentication.vf_message := None;
                    Authentication.vf_fields := Some [field];
                    Authentication.vf_relations := Some [] |}, S w);
     Authentication.query_FIND_MANY := fun _ w => (Resolved route_rules, S w);
     Authentication.query_FIND := fun _ w => (Resolved found, S w);
     Authentication.jwtService_verifyAsync := fun token _ w =>
       (if String.eqb token "good" then Resolved {[ "sub" := JNum 7 ]}
        else Rejected "invalid signature", S w);
     Authentication.findDotNotation := find_dot_path |}.

(** A fetched user whose related key record holds [k1]. *)
Definition user_with_key : Row :=
  {[ "id" := JNum 7; "UserApiKey" := JObj {[ "apiKey" := JStr "k1" ]} ]}.

(** The same key record, on a row that carries no [id]. *)
Definition key_without_identity : Row :=
  {[ "UserApiKey" := JObj {[ "apiKey" := JStr "k1" ]} ]}.

Definition with_api_key : Request := request {[ "x-api-key" := "k1" ]}.
Definition with_bad_token : Request := request {[ "authorization" := "Bearer forged" ]}.
Definition with_good_token : Request := request {[ "authorization" := "Bearer good" ]}.
Definition anonymous : Request := request ∅.

(** The restriction a role grants: only the caller's own rows. *)
Definition own_rows : DatabaseWhere :=
  {| w_column := "owner"; w_operator := WhereOperator.equals;
     w_value := Some (JNum 7) |}.

(** The collaborators of the controller.  [pk] is what [getPrimaryKey]
    answers, [auth] what authentication resolves to, [restriction] what the
    role grants and [record] what the existence check fetches. *)
Definition put_services (pk : option string) (auth : AuthRestrictionsResponse)
    (restriction : option DatabaseWhere) (record : option Row)
  : PutController.Services nat :=
  {| PutController.UrlToTable := fun _ _ => "users";
     PutController.schema_getSchema := fun _ _ w => (Resolved users, S w);
     PutController.schema_getPrimaryKey := fun _ => pk;
     PutController.schema_validateData := fun _ data w =>
       (Resolved {| PutController.v_valid := true;
                    PutController.v_message := None;
                    PutController.v_instance := Some data |}, S w);
     PutController.authentication_auth := fun _ _ w => (Resolved auth, S w);
     PutController.roles_tablePermission := fun _ w =>
       (Resolved {| PutController.p_valid := true;
                    PutController.p_message := None;
                    PutController.p_restriction := restriction |}, S w);
     PutController.query_UNIQUE := fun _ _ w =>
       (Resolved {| PutController.u_valid := true;
                    PutController.u_message := None |}, S w);
     PutController.query_FIND_ONE := fun _ _ w => (Resolved record, S w);
     PutController.query_UPDATE := fun options _ w =>
       (Resolved (default ∅ (PutController.up_data options)), S w) |}.

(** A token rule whose lookup table does not exist. *)
Definition ghost_rule : Authentication.Auth :=
  {| Authentication.type := Some AuthType.JWT;
     Authentication.location := None;
     Authentication.name := None;
     Authentication.table :=
       {| Authentication.table_name := "ghosts";
          Authentication.identity_column := None;
          Authentication.column := None |} |}.

(** The same collaborators, with a query engine whose [FIND] rejects. *)
Definition with_find_down (svc : Authentication.Services nat)
  : Authentication.Services nat :=
  {| Authentication.LLANA_AUTH_TABLE := Authentication.LLANA_AUTH_TABLE svc;
     Authentication.Env_IsTest := Authentication.Env_IsTest svc;
     Authentication.config_auth := Authentication.config_auth svc;
     Authentication.config_soft := Authentication.config_soft svc;
     Authentication.config_jwt := Authentication.config_jwt svc;
     Authentication.schema_getSchema := Authentication.schema_getSchema svc;
     Authentication.schema_validateFields := Authentication.schema_validateFields svc;
     Authentication.query_FIND_MANY := Authentication.query_FIND_MANY svc;
     Authentication.query_FIND := fun _ w => (Rejected "connection lost", S w);
     Authentication.jwtService_verifyAsync := Authentication.jwtService_verifyAsync svc;
     Authentication.findDotNotation := Authentication.findDotNotation svc |}.

(** The same collaborators of the controller, with a role authorizer that
    rejects. *)
Definition with_roles_down (svc : PutController.Services nat)
  : PutController.Services nat :=
  {| PutController.UrlToTable := PutController.UrlToTable svc;
     PutController.schema_getSchema := PutController.schema_getSchema svc;
     PutController.schema_getPrimaryKey := PutController.schema_getPrimaryKey svc;
     PutController.schema_validateData := PutController.schema_validateData svc;
     PutController.authentication_auth := PutController.authentication_auth svc;
     PutController.roles_tablePermission := fun _ w =>
       (Rejected "roles table unreachable", S w);
     PutController.query_UNIQUE := PutController.query_UNIQUE svc;
     PutController.query_FIND_ONE := PutController.query_FIND_ONE svc;
     PutController.query_UPDATE := PutController.query_UPDATE svc |}.

End Scenario.

(** * Properties *)

(** ** Case analysis on a run

    A run is a cascade of matches on what the calls settle to.  [run_inv H]
    takes the equation [H] between a run and its result and splits on the
    scrutinee at the head of the cascade, again and again, so that every path
    through the method body is one goal. *)

Ltac scrutinee t :=
  lazymatch t with
  | match ?x with _ => _ end =>
      match constr:(Set) with
      | _ => scrutinee x
      | _ => x
      end
  | ?f _ => scrutinee f
  end.

Ltac run_step H :=
  cbn beta iota zeta in H;
  lazymatch type of H with
  | ?l = _ => let s := scrutinee l in destruct s eqn:?
  end.

Ltac run_inv H := repeat run_step H; simplify_eq.

(** Which element of an explicit list an event is. *)
Ltac in_inv H :=
  cbn in H;
  repeat first
    [ apply elem_of_nil in H; destruct H
    | apply elem_of_cons in H as [H|H]; [simplify_eq|] ].

(** An event is in an explicit list. *)
Ltac in_list :=
  cbn;
  repeat first [ apply list_elem_of_here | apply list_elem_of_further ].

(** Evaluates a run on concrete data and finds the event in it. *)
Ltac found :=
  vm_compute;
  repeat first [ apply list_elem_of_here | apply list_elem_of_further ].

Lemma strict_equal_eq (a b : JsVal) : strict_equal a b = true -> a = b.
Proof.
  destruct a, b; cbn; try discriminate; try reflexivity; intros H.
  - apply Bool.eqb_prop in H. congruence.
  - apply Z.eqb_eq in H. congruence.
  - apply String.eqb_eq in H. congruence.
Qed.

Lemma strict_equal_truthy_false (key : JsVal) :
  truthy key = true -> strict_equal (JBool false) key = false.
Proof. destruct key as [| |[]| | |]; cbn; congruence. Qed.

Lemma negb_false (b : bool) : negb b = false -> b = true.
Proof. destruct b; cbn; congruence. Qed.

Lemma last_app_nonempty {A} (l1 l2 : list A) (x : A) :
  last l2 = Some x -> last (l1 ++ l2) = Some x.
Proof.
  intros H. destruct l2 as [|y l2]; [discriminate|].
  rewrite last_app. rewrite H. reflexivity.
Qed.

Section BindFacts.
Context {W E R : Type}.

Lemma bind_assoc {A B C} (m : Run W E R A) (f : A -> Run W E R B)
    (g : B -> Run W E R C) (w : W) :
  bind (bind m f) g w = bind m (fun a => bind (f a) g) w.
Proof.
  unfold bind. destruct (m w) as [[[a| |] w1] evs1]; try reflexivity.
  destruct (f a w1) as [[[b| |] w2] evs2]; try reflexivity.
  destruct (g b w2) as [[o w3] evs3]. rewrite app_assoc. reflexivity.
Qed.

Lemma bind_ext {A B} (m : Run W E R A) (f g : A -> Run W E R B) (w : W) :
  (forall a w1, f a w1 = g a w1) -> bind m f w = bind m g w.
Proof.
  intros Hfg. unfold bind. destruct (m w) as [[[a| |] w1] evs1]; try reflexivity.
  rewrite Hfg. reflexivity.
Qed.
End BindFacts.

(** ** The authentication engine *)

Module AuthenticationSpec.
Import Authentication.

(** *** The route check *)

Section RouteCheck.
Variable url : string.

Lemma exclusion_pass (rules : list AuthRouteRule) (required : bool) :
  fold_left (fun required exclude =>
               if str_includes url (rule_table exclude) then false else required)
            rules required
  = required && negb (existsb (on_route url) rules).
Proof.
  revert required. induction rules as [|rule rules IH]; intros required; cbn.
  - now rewrite andb_true_r.
  - rewrite IH. unfold on_route at 2. destruct (str_includes url (rule_table rule)); cbn.
    + now rewrite andb_false_r.
    + reflexivity.
Qed.

Lemma inclusion_pass (rules : list AuthRouteRule) (required : bool) :
  fold_left (fun required include =>
               if str_includes url (rule_table include) then true else required)
            rules required
  = required || existsb (on_route url) rules.
Proof.
  revert required. induction rules as [|rule rules IH]; intros required; cbn.
  - now rewrite orb_false_r.
  - rewrite IH. unfold on_route at 2. destruct (str_includes url (rule_table rule)); cbn.
    + now rewrite orb_true_r.
    + reflexivity.
Qed.

(** Whatever the rows of the auth table say, the check ends up required:
    every row that switches it off in the first pass is also in the second
    list, and switches it on again. *)
Lemma check_required_always (rules : list AuthRouteRule) :
  check_required url rules = true.
Proof.
  unfold check_required. rewrite exclusion_pass, inclusion_pass. cbn.
  destruct (existsb (on_route url) _); reflexivity.
Qed.
End RouteCheck.

Section Facts.
Context {W : Type}.
Variable svc : Services W.

(** *** The loop *)

Lemma auth_rule_valid req auth_schema rule ap w :
  valid ap = true -> auth_rule svc req auth_schema rule ap w = (Next ap, w, []).
Proof. intros H. unfold auth_rule. now rewrite H. Qed.

Lemma auth_loop_valid req auth_schema rules ap w :
  valid ap = true -> auth_loop svc req auth_schema rules ap w = (Next ap, w, []).
Proof.
  intros H. induction rules as [|rule rules IH]; cbn; [reflexivity|].
  unfold bind. now rewrite auth_rule_valid, IH.
Qed.

Lemma auth_loop_app req auth_schema earlier later ap w :
  auth_loop svc req auth_schema (earlier ++ later) ap w
  = bind (auth_loop svc req auth_schema earlier ap)
         (fun ap' => auth_loop svc req auth_schema later ap') w.
Proof.
  revert ap w. induction earlier as [|rule earlier IH]; intros ap w; cbn.
  - unfold bind, ret. now destruct (auth_loop _ _ _ later ap w) as [[o w1] evs].
  - rewrite bind_assoc. apply bind_ext. intros ap' w1. apply IH.
Qed.

(** The loop, one turn unfolded. *)
Lemma auth_loop_cons req auth_schema rule rest ap w :
  auth_loop svc req auth_schema (rule :: rest) ap w
  = match auth_rule svc req auth_schema rule ap w with
    | (Next ap', w1, evs1) =>
        match auth_loop svc req auth_schema rest ap' w1 with
        | (o, w2, evs2) => (o, w2, evs1 ++ evs2)
        end
    | (Return_ r, w1, evs1) => (Return_ r, w1, evs1)
    | (Throw reason, w1, evs1) => (Throw reason, w1, evs1)
    end.
Proof. reflexivity. Qed.

(** *** The lookup of an API-key rule *)

(** A turn of the loop that makes a [FIND] is a turn for an API-key rule,
    outside the test environment, on a resolved lookup table, with the key
    read from the request; the [FIND] is the last call of the turn and its
    result decides the turn. *)
Lemma lookup_inv req auth_schema rule ap w o w' evs options res :
  auth_rule svc req auth_schema rule ap w = (o, w', evs) ->
  EvFind options res ∈ evs ->
  Env_IsTest svc = false /\ type rule = Some AuthType.APIKEY /\
  exists schema nm loc col fields relations,
    EvGetSchema (table_name (table rule)) (Resolved schema) ∈ evs /\
    present (name rule) = Some nm /\ location rule = Some loc /\
    present (column (table rule)) = Some col /\
    truthy (request_value req loc nm) = true /\
    options = find_options svc rule schema (identity_column_of rule schema) col
                           (request_value req loc nm) fields relations /\
    last evs = Some (EvFind options res) /\
    o = match res with
        | Resolved result =>
            key_verdict svc col (identity_column_of rule schema)
                        (request_value req loc nm) result
        | Rejected reason => Throw reason
        end.
Proof.
  unfold auth_rule, api_key, api_key_lookup, jwt, bind, await, try_await, bind,
    ret, return_, throw, finish.
  intros Hrun Hin. run_inv Hrun; in_inv Hin.
  all: split; [reflexivity|split; [reflexivity|]].
  all: eexists _, _, _, _, _, _; cbn.
  all: repeat split; try reflexivity; try (apply negb_false; eassumption).
  all: in_list.
Qed.

Lemma miss_in_turn req auth_schema rule ap w options :
  let turn := auth_rule svc req auth_schema rule ap w in
  EvFind options (Resolved None) ∈ turn.2 ->
  turn.1.1 = Return_ (failed "Unauthorized") /\
  last turn.2 = Some (EvFind options (Resolved None)).
Proof.
  cbn zeta. destruct (auth_rule _ _ _ _ _ _) as [[o w'] evs] eqn:Hrun. cbn.
  intros Hin.
  destruct (lookup_inv _ _ _ _ _ _ _ _ _ _ Hrun Hin)
    as (_ & _ & schema & nm & loc & col & fields & relations & H).
  destruct H as (_ & _ & _ & _ & _ & _ & Hlast & ->). now split.
Qed.

Lemma miss_in_loop req auth_schema rules ap w options :
  let run := auth_loop svc req auth_schema rules ap w in
  EvFind options (Resolved None) ∈ run.2 ->
  run.1.1 = Return_ (failed "Unauthorized") /\
  last run.2 = Some (EvFind options (Resolved None)).
Proof.
  cbn zeta. revert ap w.
  induction rules as [|rule rest IH]; intros ap w.
  - cbn. intros Hin. in_inv Hin.
  - rewrite auth_loop_cons.
    pose proof (miss_in_turn req auth_schema rule ap w options) as Hturn.
    cbn zeta in Hturn.
    destruct (auth_rule _ _ _ _ _ _) as [[[ap'|r|reason] w1] evs1]; cbn in *;
      try exact Hturn.
    specialize (IH ap' w1).
    destruct (auth_loop _ _ _ rest ap' w1) as [[o2 w2] evs2]; cbn in *.
    intros [Hin|Hin]%elem_of_app.
    + destruct (Hturn Hin) as [? _]. discriminate.
    + destruct (IH Hin) as [-> Hlast]. split; [reflexivity|].
      now apply last_app_nonempty.
Qed.

(** *** The claims *)

(** C5. Once an earlier rule has produced a valid result, no later rule is
    evaluated: the loop over [earlier ++ later] ends with the result, the
    world and the calls of the loop over [earlier] alone, so the later
    rules neither update the result nor make any lookup or verification. *)
Theorem later_rules_skipped_after_pass req auth_schema earlier later ap0 w ap w' evs :
  auth_loop svc req auth_schema earlier ap0 w = (Next ap, w', evs) ->
  valid ap = true ->
  auth_loop svc req auth_schema (earlier ++ later) ap0 w = (Next ap, w', evs).
Proof.
  intros Hrun Hvalid. rewrite auth_loop_app. unfold bind. rewrite Hrun.
  rewrite auth_loop_valid by assumption. now rewrite app_nil_r.
Qed.

(** C6. Whenever the lookup of an API-key rule finds no record, [auth]
    resolves to the invalid result with the message Unauthorized, and the
    lookup is the last call it makes: no later rule is evaluated. *)
Theorem api_key_miss_is_unauthorized req w options :
  EvFind options (Resolved None) ∈ (auth svc req w).2 ->
  (auth svc req w).1.1 = Resolved (failed "Unauthorized") /\
  last (auth svc req w).2 = Some (EvFind options (Resolved None)).
Proof.
  unfold auth, settle.
  destruct (config_auth svc) as [authentications|];
    [|cbn; intros Hin; in_inv Hin].
  unfold bind, await, try_await, bind, ret, throw.
  destruct (schema_getSchema _ _ _) as [[auth_schema|reason] w0];
    cbn beta iota zeta; [|cbn; intros Hin; in_inv Hin].
  pose proof (miss_in_loop req auth_schema authentications
                (failed "Unauthorized") w0 options) as Hloop.
  cbn zeta in Hloop.
  destruct (auth_loop _ _ _ _ _ _) as [[o w1] evs]; cbn in Hloop.
  destruct o; cbn; intros [Hin|Hin]%elem_of_cons; try discriminate;
    destruct (Hloop Hin) as [Ho Hlast]; try discriminate.
  injection Ho as ->. split; [reflexivity|].
  destruct evs as [|e evs]; [discriminate|exact Hlast].
Qed.

(** C2, as the code has it.  When the lookup of an API-key rule fetches a
    row, the rule passes only if the value that dot notation finds under
    the matching column of that row is strictly equal to the key read from
    the request; the identity it yields is the row's identity column, which
    is then not empty.  A row whose matching column differs from the key
    gives Unauthorized.  A row that has no property of its own under the
    name of the matching column and resolves to the key passes when its
    identity column is not empty, and is a configuration error otherwise. *)
Theorem api_key_pass_requires_exact_match req auth_schema rule ap w options row :
  let turn := auth_rule svc req auth_schema rule ap w in
  EvFind options (Resolved (Some row)) ∈ turn.2 ->
  exists schema nm loc col,
    EvGetSchema (table_name (table rule)) (Resolved schema) ∈ turn.2 /\
    present (name rule) = Some nm /\ location rule = Some loc /\
    present (column (table rule)) = Some col /\
    let key := request_value req loc nm in
    let matching := findDotNotation svc row col in
    let identity := prop row (identity_column_of rule schema) in
    (matching <> key -> turn.1.1 = Return_ (failed "Unauthorized")) /\
    (forall passing, turn.1.1 = Next passing ->
       matching = key /\ strict_equal matching key = true /\
       truthy identity = true /\ passing = identified identity) /\
    (truthy (prop row col) = false -> strict_equal matching key = true ->
       turn.1.1 =
         if truthy identity then Next (identified identity)
         else Return_ (failed ("System configuration error: Identity column "
                                 +:+ identity_column_of rule schema
                                 +:+ " not found"))).
Proof.
  cbn zeta. destruct (auth_rule _ _ _ _ _ _) as [[o w'] evs] eqn:Hrun. cbn.
  intros Hin.
  destruct (lookup_inv _ _ _ _ _ _ _ _ _ _ Hrun Hin)
    as (_ & _ & schema & nm & loc & col & fields & relations & H).
  destruct H as (Hschema & Hname & Hloc & Hcol & Hkey & _ & _ & ->).
  exists schema, nm, loc, col. repeat (split; [assumption|]).
  unfold key_verdict, not_and.
  destruct (truthy (prop row col)) eqn:Hdirect.
  - rewrite (strict_equal_truthy_false _ Hkey). cbn.
    split; [reflexivity|]. split; intros; discriminate.
  - destruct (strict_equal _ _) eqn:Heq; cbn.
    + apply strict_equal_eq in Heq as Hsame.
      destruct (truthy (prop row (identity_column_of rule schema))); cbn.
      * split; [congruence|]. split; [|reflexivity].
        intros passing [= <-]. auto.
      * split; [congruence|]. split; [discriminate|reflexivity].
    + split; [reflexivity|]. split; intros; discriminate.
Qed.

(** C9. In the test environment an API-key rule that is dispatched with a
    key present at its configured location records the passing result
    without any identity, and the turn makes no [FIND]: the key is never
    compared with a stored record. *)
Theorem test_environment_skips_lookup req auth_schema rule ap w nm loc schema :
  let turn := auth_rule svc req auth_schema rule ap w in
  Env_IsTest svc = true ->
  type rule = Some AuthType.APIKEY ->
  present (name rule) = Some nm -> location rule = Some loc ->
  truthy (request_value req loc nm) = true ->
  EvGetSchema (table_name (table rule)) (Resolved schema) ∈ turn.2 ->
  turn.1.1 = Next {| valid := true; message := None; user_identifier := None |} /\
  (forall options res, EvFind options res ∉ turn.2).
Proof.
  cbn zeta. intros Htest Hty Hname Hloc Hkey.
  destruct (auth_rule _ _ _ _ _ _) as [[o w'] evs] eqn:Hrun. cbn.
  intros Hin. split.
  - unfold auth_rule, api_key, api_key_lookup, bind, await, try_await, bind,
      ret, return_, throw, finish in Hrun.
    rewrite Hty, Hname, Hloc, Htest in Hrun.
    destruct loc; cbn in Hkey; rewrite Hkey in Hrun;
      run_inv Hrun; in_inv Hin; reflexivity.
  - intros options res Hfind.
    destruct (lookup_inv _ _ _ _ _ _ _ _ _ _ Hrun Hfind) as [Hnot _].
    congruence.
Qed.


End Facts.

End AuthenticationSpec.

(** ** The authentication engine on concrete requests *)

Module AuthenticationRuns.
Import Authentication AuthenticationSpec Scenario.

(** The token rule passes and the API-key rule after it is never looked at. *)
Lemma later_rules_skipped_after_pass_witness :
  exists w' evs,
    auth_loop (auth_services false None [] None) with_good_token auth_table
              ([jwt_rule] ++ [api_key_rule]) (failed "Unauthorized") 1
    = (Next (identified (JNum 7)), w', evs)
    /\ forall options res, EvFind options res ∉ evs.
Proof.
  eexists _, _. split.
  - apply (later_rules_skipped_after_pass
             (auth_services false None [] None) with_good_token auth_table
             [jwt_rule] [api_key_rule] (failed "Unauthorized") 1).
    + vm_compute. reflexivity.
    + reflexivity.
  - intros options res Hin. in_inv Hin.
Defined.

(** No user holds the key: Unauthorized, and the token rule is not tried. *)
Lemma api_key_miss_is_unauthorized_witness :
  (auth (auth_services false (Some [api_key_rule; jwt_rule]) [] None) with_api_key 0).1.1
  = Resolved (failed "Unauthorized").
Proof.
  refine (proj1 (api_key_miss_is_unauthorized
                   (auth_services false (Some [api_key_rule; jwt_rule]) [] None)
                   with_api_key 0 _ _)).
  found.
Defined.

(** The fetched user resolves to the key through its related record and has
    an [id]: the rule passes, and what was compared is the key. *)
Lemma api_key_pass_requires_exact_match_witness :
  let svc := auth_services false None [] (Some user_with_key) in
  let turn := auth_rule svc with_api_key auth_table api_key_rule
                        (failed "Unauthorized") 1 in
  turn.1.1 = Next (identified (JNum 7)) /\
  find_dot_path user_with_key "UserApiKey.apiKey" = JStr "k1".
Proof.
  cbn zeta. split; [reflexivity|].
  destruct (api_key_pass_requires_exact_match
              (auth_services false None [] (Some user_with_key))
              with_api_key auth_table api_key_rule (failed "Unauthorized") 1
              (find_options (auth_services false None [] (Some user_with_key))
                            api_key_rule users "id" "UserApiKey.apiKey"
                            (JStr "k1") ["UserApiKey.apiKey"] [])
              user_with_key)
    as (schema & nm & loc & col & _ & Hname & Hloc & Hcol & _ & Hpass & _).
  - found.
  - injection Hname as <-. injection Hloc as <-. injection Hcol as <-.
    exact (proj1 (Hpass (identified (JNum 7)) eq_refl)).
Defined.

(** C2 fails as stated.  The fetched row resolves to exactly the key of the
    request, and authentication does not pass: the row carries no identity
    column, and [auth] answers with a configuration error. *)
Lemma matching_key_without_identity_is_refused :
  let svc := auth_services false (Some [api_key_rule]) [] (Some key_without_identity) in
  let run := auth svc with_api_key 0 in
  (exists options, EvFind options (Resolved (Some key_without_identity)) ∈ run.2) /\
  strict_equal (findDotNotation svc key_without_identity "UserApiKey.apiKey")
               (request_value with_api_key AuthLocation.HEADER "x-api-key") = true /\
  run.1.1 = Resolved {| valid := false;
                        message := Some "System configuration error: Identity column id not found";
                        user_identifier := None |}.
Proof.
  cbn zeta. split; [|split; reflexivity].
  eexists. found.
Qed.

(** C3 fails on the code.  The auth table excludes the table [users] for
    token rules and the route is [/users/42], so the rule should be skipped
    and the result stay Unauthorized; the route check still answers
    "required", the lookup table of the rule is resolved and the rule is
    enforced: the request, which has no token, gets "JWT token required". *)
Theorem excluded_route_still_enforced :
  let excluded := {| exclude := true; rule_table := "users" |} in
  let svc := auth_services false (Some [jwt_rule]) [excluded] None in
  let run := auth svc anonymous 0 in
  str_includes (originalUrl anonymous) (rule_table excluded) = true /\
  check_required (originalUrl anonymous) [excluded] = true /\
  EvGetSchema "users" (Resolved users) ∈ run.2 /\
  run.1.1 = Resolved (failed "JWT token required").
Proof.
  cbn zeta. split; [reflexivity|]. split; [apply check_required_always|].
  split; [found|reflexivity].
Qed.


(** In the test environment the key is accepted unseen. *)
Lemma test_environment_skips_lookup_witness :
  let svc := auth_services true None [] None in
  (auth_rule svc with_api_key auth_table api_key_rule (failed "Unauthorized") 1).1.1
  = Next {| valid := true; message := None; user_identifier := None |}.
Proof.
  refine (proj1 (test_environment_skips_lookup
                   (auth_services true None [] None) with_api_key auth_table
                   api_key_rule (failed "Unauthorized") 1
                   "x-api-key" AuthLocation.HEADER users _ _ _ _ _ _)).
  - reflexivity.
  - reflexivity.
  - reflexivity.
  - reflexivity.
  - reflexivity.
  - found.
Defined.

End AuthenticationRuns.

(** ** The update-by-id pipeline *)

Module PutControllerSpec.
Import PutController.


Section Facts.
Context {W : Type}.
Variable svc : Services W.

(** Unfolds [updateById] in the equation [H] and splits it into its paths. *)
Ltac paths H :=
  unfold updateById, role_check, settle, bind, await, try_await, bind,
    ret, return_, throw in H;
  run_inv H.

(** Whatever the role authorizer returned, the existence check is made
    with the filter on the primary key and nothing else. *)
Lemma existence_check_where req id w options x res :
  EvFindOne options x res ∈ (updateById svc req id w).2 ->
  exists primary_key,
    present (schema_getPrimaryKey svc (fo_schema options)) = Some primary_key /\
    fo_where options = [ {| w_column := primary_key;
                            w_operator := WhereOperator.equals;
                            w_value := Some (JStr id) |} ].
Proof.
  destruct (updateById svc req id w) as [[o w'] evs] eqn:Hrun. cbn.
  intros Hin. paths Hrun; in_inv Hin; cbn; eauto.
Qed.

(** C4. When the existence check fetches no record, the request ends with
    the 400 response "Record with id ... not found", the check is the last
    call of the run, and no UPDATE is ever submitted. *)
Theorem missing_record_stops_before_update req id w options x :
  let run := updateById svc req id w in
  EvFindOne options x (Resolved None) ∈ run.2 ->
  run.1.1 = Resolved {| status := 400;
                        sent := Text (Some ("Record with id " +:+ id
                                              +:+ " not found")) |} /\
  last run.2 = Some (EvFindOne options x (Resolved None)) /\
  (forall update x' res, EvUpdate update x' res ∉ run.2).
Proof.
  cbn zeta. destruct (updateById svc req id w) as [[o w'] evs] eqn:Hrun. cbn.
  intros Hin. paths Hrun; in_inv Hin.
  all: repeat split; intros; intros Hup; in_inv Hup.
Qed.


(** C10. When the resolved schema has no primary key, no call goes to the
    Query Engine and the request is not answered with 200; once the body
    has passed validation, the answer is the 400 response that names the
    table. *)
Theorem missing_primary_key_is_bad_request req id w :
  let run := updateById svc req id w in
  (forall table x schema,
      EvGetSchema table x (Resolved schema) ∈ run.2 ->
      present (schema_getPrimaryKey svc schema) = None) ->
  (forall e, e ∈ run.2 -> is_query e = false) /\
  (forall response, run.1.1 = Resolved response -> status response <> 200) /\
  (forall schema validate,
      EvValidateData schema (body req) (Resolved validate) ∈ run.2 ->
      v_valid validate = true ->
      run.1.1 = Resolved
                  {| status := 400;
                     sent := Text (Some ("No primary key found for table "
                                           +:+ UrlToTable svc (originalUrl req) 1)) |}).
Proof.
  cbn zeta. destruct (updateById svc req id w) as [[o w'] evs] eqn:Hrun. cbn.
  intros Hpk. paths Hrun; cbn in Hpk.
  all: try match goal with
         | H : present (schema_getPrimaryKey svc ?schema) = Some _ |- _ =>
             rewrite (Hpk _ _ schema) in H by in_list; discriminate
         end.
  all: split; [intros e Hin; in_inv Hin; reflexivity|].
  all: split; [intros response [= <-]; cbn; discriminate|].
  all: intros schema validate Hin Hvalid; in_inv Hin;
    first [ reflexivity | rewrite Hvalid in *; discriminate ].
Qed.

End Facts.
End PutControllerSpec.

(** ** The update-by-id pipeline on concrete requests *)

Module PutControllerRuns.
Import PutController PutControllerSpec Scenario.

(** C1 fails on the code.  The caller is identified, and the role authorizer
    grants write access to [users] restricted to the caller's own rows.  The
    restriction should be in the where-clauses of the existence check, next
    to the filter on the primary key; the check is made with the filter on
    the primary key alone, finds the row whoever owns it, and the update is
    answered with 200. *)
Theorem restriction_dropped_from_existence_check :
  let svc := put_services (Some "id") (Authentication.identified (JNum 7))
                          (Some own_rows) (Some user_with_key) in
  let run := updateById svc with_api_key "42" 0 in
  let granted :=
    {| p_valid := true; p_message := None; p_restriction := Some own_rows |} in
  let by_key :=
    {| w_column := "id"; w_operator := WhereOperator.equals;
       w_value := Some (JStr "42") |} in
  (exists options, EvTablePermission options (Resolved granted) ∈ run.2) /\
  EvFindOne {| fo_schema := users; fo_where := [by_key] |} None
            (Resolved (Some user_with_key)) ∈ run.2 /\
  (own_rows ∉ [by_key]) /\
  (forall options x res,
      EvFindOne options x res ∈ run.2 -> own_rows ∉ fo_where options) /\
  (exists row, run.1.1 = Resolved {| status := 200; sent := Json row |}).
Proof.
  cbn zeta. split; [eexists; found|]. split; [found|].
  assert (own_rows ∉ [ {| w_column := "id"; w_operator := WhereOperator.equals;
                          w_value := Some (JStr "42") |} ]) as Hout.
  { intros [H|H]%elem_of_cons; [discriminate H|in_inv H]. }
  split; [exact Hout|]. split.
  - intros options x res Hin.
    destruct (existence_check_where _ _ _ _ _ _ _ Hin) as (primary_key & Hpk & ->).
    cbn in Hpk. injection Hpk as <-. exact Hout.
  - eexists. reflexivity.
Qed.

(** The row 42 does not exist: 400, and no UPDATE. *)
Lemma missing_record_stops_before_update_witness :
  let svc := put_services (Some "id") Authentication.passed None None in
  (updateById svc anonymous "42" 0).1.1
  = Resolved {| status := 400; sent := Text (Some "Record with id 42 not found") |}.
Proof.
  refine (proj1 (missing_record_stops_before_update
                   (put_services (Some "id") Authentication.passed None None)
                   anonymous "42" 0 _ _ _)).
  found.
Defined.

(** The schema of [users] has no primary key: 400, naming the table. *)
Lemma missing_primary_key_is_bad_request_witness :
  let svc := put_services None Authentication.passed None None in
  (updateById svc anonymous "42" 0).1.1
  = Resolved {| status := 400;
                sent := Text (Some "No primary key found for table users") |}.
Proof.
  refine (proj2 (proj2 (missing_primary_key_is_bad_request
                          (put_services None Authentication.passed None None)
                          anonymous "42" 0 _)) users
                {| v_valid := true; v_message := None;
                   v_instance := Some (body anonymous) |} _ _).
  - intros table x schema _. reflexivity.
  - found.
  - reflexivity.
Defined.

End PutControllerRuns.

(** ** More on the authentication engine *)

Module AuthenticationMore.
Import Authentication AuthenticationSpec.

(** *** Merging the resolved fields and relations into the lookup *)









Section Options.
Context {W : Type}.
Variable svc : Services W.



End Options.

(** *** The bearer token *)

Lemma split_spaceless (s : string) :
  spaceless s = true -> split " "%char s = [s].
Proof.
  induction s as [|c s IH]; cbn; [reflexivity|].
  destruct (Ascii.eqb c " "%char); cbn; [discriminate|].
  intros Hs. now rewrite (IH Hs).
Qed.

Lemma split_at_blank (s1 s2 : string) :
  spaceless s1 = true ->
  split " "%char (s1 +:+ " " +:+ s2) = s1 :: split " "%char s2.
Proof.
  induction s1 as [|c s1 IH]; intros Hs1.
  - reflexivity.
  - cbn in Hs1. change (String c s1 +:+ " " +:+ s2)
      with (String c (s1 +:+ " " +:+ s2)).
    cbn [split]. destruct (Ascii.eqb c " "%char); cbn in Hs1; [discriminate|].
    now rewrite (IH Hs1).
Qed.

(** X9. The token of a request is the second blank-separated word of the
    [authorization] header, whatever the first word is and whatever follows
    the second: the scheme is not looked at, and words after the token are
    ignored.  A header without a blank carries no token. *)
Theorem bearer_token_is_second_word (req : Request) (value : string) :
  headers req !! "authorization" = Some value ->
  (spaceless value = true -> bearer_token req = None) /\
  (forall scheme token rest,
      spaceless scheme = true -> spaceless token = true ->
      value = scheme +:+ " " +:+ token \/
      value = scheme +:+ " " +:+ token +:+ " " +:+ rest ->
      bearer_token req = Some token).
Proof.
  intros Hvalue. unfold bearer_token. rewrite Hvalue. split.
  - intros Hs. now rewrite split_spaceless.
  - intros scheme token rest Hscheme Htoken [-> | ->].
    + now rewrite split_at_blank, (split_spaceless token).
    + now rewrite split_at_blank, split_at_blank.
Qed.

(** *** Where a run stops *)

(** When no element but the last one satisfies [P], an element that
    satisfies [P] has nothing after it. *)
Lemma ends_last {A} (P : A -> bool) (tr : list A) :
  Forall (fun e => P e = false) (removelast tr) ->
  forall before e after, tr = before ++ e :: after -> P e = true -> after = [].
Proof.
  intros Hall before e after -> HP.
  destruct after as [|e' after]; [reflexivity|]. exfalso.
  rewrite removelast_app in Hall by discriminate.
  apply Forall_app in Hall as [_ Hall].
  change (removelast (e :: e' :: after)) with (e :: removelast (e' :: after)) in Hall.
  apply Forall_cons in Hall as [Hall _]. congruence.
Qed.

Lemma Forall_removelast {A} (P : A -> Prop) (l : list A) :
  Forall P l -> Forall P (removelast l).
Proof.
  induction 1 as [|x l Hx Hl IH]; cbn; [constructor|].
  destruct l; [constructor|]. constructor; assumption.
Qed.

Lemma removelast_app_quiet {A} (P : A -> Prop) (l1 l2 : list A) :
  Forall P l1 -> Forall P (removelast l2) -> Forall P (removelast (l1 ++ l2)).
Proof.
  intros H1 H2. destruct l2 as [|x l2].
  - rewrite app_nil_r. now apply Forall_removelast.
  - rewrite removelast_app by discriminate. apply Forall_app. now split.
Qed.

Lemma last_app_quiet {A} (l1 l2 : list A) (e : A) :
  last (l1 ++ l2) = Some e -> last l2 = Some e \/ (l2 = [] /\ last l1 = Some e).
Proof.
  destruct l2 as [|x l2].
  - rewrite app_nil_r. auto.
  - rewrite last_app. destruct (last (x :: l2)) eqn:Hlast; [auto|].
    now apply last_None in Hlast.
Qed.

(** A rejection that ends the run: an unresolved table or an uncaught call. *)
Local Abbreviation ends_run e :=
  (match e with
   | EvGetSchema _ (Rejected _) => true
   | _ => match uncaught e with Some _ => true | None => false end
   end).

(** How a turn, or the loop, ends on such a rejection. *)
Local Abbreviation ended o e :=
  (o = match e with
       | EvGetSchema table _ =>
           Return_ (failed ("No Schema Found For Table " +:+ table))
       | _ => match uncaught e with Some reason => Throw reason | None => o end
       end).

Section Runs.
Context {W : Type}.
Variable svc : Services W.

Ltac turn H :=
  unfold auth_rule, api_key, api_key_lookup, jwt, bind, await, try_await, bind,
    ret, return_, throw, finish in H;
  run_inv H.

(** Splits an equation between the verdict on a fetched row and an outcome. *)
Ltac verdict_inv :=
  repeat match goal with
         | H : _ = Return_ _ |- _ => run_step H
         | H : _ = Next _ |- _ => run_step H
         end;
  simplify_eq.

Lemma turn_stops req auth_schema rule ap w o w' evs :
  auth_rule svc req auth_schema rule ap w = (o, w', evs) ->
  Forall (fun e => ends_run e = false) (removelast evs) /\
  (forall e, last evs = Some e -> ends_run e = true -> ended o e) /\
  (forall ap', o = Next ap' -> Forall (fun e => ends_run e = false) evs).
Proof.
  intros Hrun. turn Hrun; cbn.
  all: split; [repeat constructor|].
  all: split; [intros e [= <-]; cbn; intros; first [discriminate|reflexivity]|].
  all: intros ap' Hnext; try discriminate; repeat constructor.
Qed.

Lemma loop_stops req auth_schema rules ap w o w' evs :
  auth_loop svc req auth_schema rules ap w = (o, w', evs) ->
  Forall (fun e => ends_run e = false) (removelast evs) /\
  (forall e, last evs = Some e -> ends_run e = true -> ended o e).
Proof.
  revert ap w o w' evs. induction rules as [|rule rest IH]; intros ap w o w' evs.
  - cbn. intros [= <- <- <-]. split; [constructor|]. discriminate.
  - rewrite auth_loop_cons.
    destruct (auth_rule _ _ _ _ _ _) as [[o1 w1] evs1] eqn:Hturn.
    destruct (turn_stops _ _ _ _ _ _ _ _ Hturn) as (Hquiet & Hend & Hnext).
    destruct o1 as [ap1|r|reason].
    + destruct (auth_loop _ _ _ rest ap1 w1) as [[o2 w2] evs2] eqn:Hrest.
      intros [= <- <- <-].
      destruct (IH _ _ _ _ _ Hrest) as (Hquiet2 & Hend2).
      specialize (Hnext ap1 eq_refl). split.
      * now apply removelast_app_quiet.
      * intros e [Hlast|[-> Hlast]]%last_app_quiet Hends; [now apply Hend2|].
        exfalso. apply last_Some in Hlast as [l ->].
        apply Forall_app in Hnext as [_ Hnext].
        apply Forall_cons in Hnext as [Hnext _].
        rewrite Hnext in Hends. discriminate.
    + intros [= <- <- <-]. now split.
    + intros [= <- <- <-]. now split.
Qed.

(** Every call of the loop is a call of one turn, for a configured rule. *)
Lemma event_of_turn req auth_schema rules ap w e :
  e ∈ (auth_loop svc req auth_schema rules ap w).2 ->
  exists rule ap' w0,
    rule ∈ rules /\ e ∈ (auth_rule svc req auth_schema rule ap' w0).2.
Proof.
  revert ap w. induction rules as [|rule rest IH]; intros ap w.
  - cbn. intros Hin. in_inv Hin.
  - rewrite auth_loop_cons.
    destruct (auth_rule _ _ _ _ _ _) as [[[ap1|r|reason] w1] evs1] eqn:Hturn.
    + specialize (IH ap1 w1).
      destruct (auth_loop _ _ _ rest ap1 w1) as [[o2 w2] evs2]. cbn in *.
      intros [Hin|Hin]%elem_of_app.
      * exists rule, ap, w. rewrite Hturn. split; [apply list_elem_of_here|exact Hin].
      * destruct (IH Hin) as (rule' & ap' & w0 & Hrule & He).
        exists rule', ap', w0. split; [now apply list_elem_of_further|exact He].
    + cbn. intros Hin. exists rule, ap, w. rewrite Hturn.
      split; [apply list_elem_of_here|exact Hin].
    + cbn. intros Hin. exists rule, ap, w. rewrite Hturn.
      split; [apply list_elem_of_here|exact Hin].
Qed.

(** The run of [auth] when rules are configured: the schema of the auth
    table, then the loop. *)
Lemma auth_configured req w rules :
  config_auth svc = Some rules ->
  auth svc req w =
    match schema_getSchema svc (LLANA_AUTH_TABLE svc) w with
    | (Resolved auth_schema, w0) =>
        match auth_loop svc req auth_schema rules (failed "Unauthorized") w0 with
        | (Next r, w1, evs) | (Return_ r, w1, evs) =>
            (Resolved r, w1,
             EvGetSchema (LLANA_AUTH_TABLE svc) (Resolved auth_schema) :: evs)
        | (Throw reason, w1, evs) =>
            (Rejected reason, w1,
             EvGetSchema (LLANA_AUTH_TABLE svc) (Resolved auth_schema) :: evs)
        end
    | (Rejected reason, w0) =>
        (Rejected reason, w0, [EvGetSchema (LLANA_AUTH_TABLE svc) (Rejected reason)])
    end.
Proof.
  intros Hrules. unfold auth, settle. rewrite Hrules.
  unfold bind, await, try_await, bind, ret, throw.
  destruct (schema_getSchema _ _ _) as [[auth_schema|reason] w0]; [|reflexivity].
  cbn beta iota zeta.
  now destruct (auth_loop _ _ _ _ _ _) as [[[r|r|reason] w1] evs].
Qed.

(** X4. A table that cannot be resolved ends the run on the spot.  When it
    is the auth table itself, asked for before any rule is looked at, the
    rejection escapes [auth]; when it is the lookup table of a rule, [auth]
    resolves to the invalid result "No Schema Found For Table ...", and no
    later rule is tried. *)
Theorem unresolved_table_ends_auth req w before table reason after :
  (auth svc req w).2 = before ++ EvGetSchema table (Rejected reason) :: after ->
  after = [] /\
  (auth svc req w).1.1 =
    match before with
    | [] => Rejected reason
    | _ :: _ => Resolved (failed ("No Schema Found For Table " +:+ table))
    end.
Proof.
  destruct (config_auth svc) as [rules|] eqn:Hrules.
  - rewrite (auth_configured req w rules Hrules).
    destruct (schema_getSchema _ _ _) as [[auth_schema|reason0] w0].
    + destruct (auth_loop _ _ _ _ _ _) as [[o w1] evs] eqn:Hloop.
      destruct (loop_stops _ _ _ _ _ _ _ _ Hloop) as (Hquiet & Hend).
      assert (forall tr : list Event,
                 EvGetSchema (LLANA_AUTH_TABLE svc) (Resolved auth_schema) :: evs
                 = tr ->
                 tr = before ++ EvGetSchema table (Rejected reason) :: after ->
                 after = [] /\
                 exists before', before = EvGetSchema (LLANA_AUTH_TABLE svc)
                                            (Resolved auth_schema) :: before' /\
                                 o = Return_ (failed ("No Schema Found For Table "
                                                        +:+ table)))
        as Hcut.
      { intros tr <- Hcut. destruct before as [|first before']; [discriminate|].
        injection Hcut as <- Hevs.
        assert (after = []) as ->
            by exact (ends_last (fun e => ends_run e) evs Hquiet _ _ _ Hevs eq_refl).
        split; [reflexivity|]. exists before'. split; [reflexivity|].
        apply (Hend (EvGetSchema table (Rejected reason))); [|reflexivity].
        rewrite Hevs. apply last_snoc. }
      destruct o as [r|r|reason1]; cbn; intros Htr;
        destruct (Hcut _ eq_refl Htr) as (-> & before' & -> & Ho);
        try discriminate; injection Ho as ->; now split.
    + cbn. intros Htr. destruct before as [|first before'].
      * injection Htr as <- <- <-. now split.
      * injection Htr as _ Htr. now destruct before'.
  - unfold auth, settle. rewrite Hrules. cbn. intros Htr. now destruct before.
Qed.

(** X5. The calls that [auth] awaits outside a [try] are not caught: when
    [FIND_MANY], [validateFields] or [FIND] rejects, it is the last call of
    the run and [auth] rejects with the same reason. *)
Theorem uncaught_rejection_escapes_auth req w before e after reason :
  (auth svc req w).2 = before ++ e :: after ->
  uncaught e = Some reason ->
  after = [] /\ (auth svc req w).1.1 = Rejected reason.
Proof.
  intros Htr Hreason.
  assert (ends_run e = true) as Hends.
  { destruct e as [? []|? []|? ? []|? []|? ? []]; cbn in *; congruence. }
  destruct (config_auth svc) as [rules|] eqn:Hrules.
  - rewrite (auth_configured req w rules Hrules) in *.
    destruct (schema_getSchema _ _ _) as [[auth_schema|reason0] w0].
    + destruct (auth_loop _ _ _ _ _ _) as [[o w1] evs] eqn:Hloop.
      destruct (loop_stops _ _ _ _ _ _ _ _ Hloop) as (Hquiet & Hend).
      assert (exists before',
                 before = EvGetSchema (LLANA_AUTH_TABLE svc) (Resolved auth_schema)
                            :: before' /\ evs = before' ++ e :: after)
        as (before' & -> & Hevs).
      { destruct o; cbn in Htr; (destruct before as [|first before'];
          [injection Htr as <- _; discriminate
          |injection Htr as <- Htr; now exists before']). }
      assert (after = []) as ->
          by exact (ends_last (fun e => ends_run e) evs Hquiet _ _ _ Hevs Hends).
      split; [reflexivity|].
      assert (ended o e) as Ho.
      { apply Hend; [|assumption]. rewrite Hevs. apply last_snoc. }
      rewrite Hreason in Ho.
      destruct e as [? []|? []|? ? []|? []|? ? []]; cbn in *; try discriminate;
        now subst o.
    + cbn in Htr. destruct before as [|first before'].
      * injection Htr as <- _. discriminate.
      * injection Htr as _ Htr. now destruct before'.
  - unfold auth, settle in Htr. rewrite Hrules in Htr. cbn in Htr.
    now destruct before.
Qed.

(** *** What a passing result rests on *)

Lemma turn_returns_invalid req auth_schema rule ap w r w' evs :
  auth_rule svc req auth_schema rule ap w = (Return_ r, w', evs) ->
  valid r = false /\ exists msg, message r = Some msg.
Proof.
  intros Hrun.
  unfold auth_rule, api_key, api_key_lookup, jwt, key_verdict, bind, await,
    try_await, bind, ret, return_, throw, finish in Hrun.
  run_inv Hrun; verdict_inv; cbn; eauto.
Qed.

Lemma turn_keeps_message req auth_schema rule ap w r w' evs :
  auth_rule svc req auth_schema rule ap w = (Next r, w', evs) ->
  r = ap \/ (valid r = true /\ message r = None)
  \/ (valid r = false /\ exists msg, message r = Some msg).
Proof.
  intros Hrun.
  unfold auth_rule, api_key, api_key_lookup, jwt, key_verdict, bind, await,
    try_await, bind, ret, return_, throw, finish in Hrun.
  run_inv Hrun; verdict_inv; cbn; eauto 6.
Qed.

Lemma turn_passes_on_evidence req auth_schema rule ap w r w' evs :
  Env_IsTest svc = false -> valid ap = false ->
  auth_rule svc req auth_schema rule ap w = (Next r, w', evs) ->
  valid r = true ->
  (exists options row column,
      last evs = Some (EvFind options (Resolved (Some row))) /\
      user_identifier r = Some (prop row column) /\
      truthy (prop row column) = true) \/
  (exists token secret payload,
      last evs = Some (EvVerify token secret (Resolved payload)) /\
      user_identifier r = Some (prop payload "sub")).
Proof.
  intros Htest Hap Hrun. unfold auth_rule in Hrun. rewrite Hap in Hrun.
  unfold api_key, api_key_lookup, jwt, key_verdict, bind, await, try_await, bind,
    ret, return_, throw, finish in Hrun.
  rewrite Htest in Hrun.
  run_inv Hrun; verdict_inv; cbn; intros Hvalid; try discriminate; try congruence.
  all: first
    [ left; eexists _, _, _; split; [reflexivity|];
      split; [reflexivity|]; apply negb_false; assumption
    | right; eexists _, _, _; split; reflexivity ].
Qed.

Lemma loop_passes_on_evidence req auth_schema rules ap w o w' evs r :
  Env_IsTest svc = false -> valid ap = false ->
  auth_loop svc req auth_schema rules ap w = (o, w', evs) ->
  o = Next r \/ o = Return_ r ->
  valid r = true ->
  (exists options row column,
      last evs = Some (EvFind options (Resolved (Some row))) /\
      user_identifier r = Some (prop row column) /\
      truthy (prop row column) = true) \/
  (exists token secret payload,
      last evs = Some (EvVerify token secret (Resolved payload)) /\
      user_identifier r = Some (prop payload "sub")).
Proof.
  intros Htest. revert ap w o w' evs.
  induction rules as [|rule rest IH]; intros ap w o w' evs Hap.
  - cbn. intros [= <- <- <-] [[= <-]|[=]] Hr. congruence.
  - rewrite auth_loop_cons.
    destruct (auth_rule _ _ _ _ _ _) as [[[ap1|r1|reason] w1] evs1] eqn:Hturn.
    + destruct (valid ap1) eqn:Hap1.
      * rewrite auth_loop_valid by assumption. rewrite app_nil_r.
        intros [= <- <- <-] [[= <-]|[=]] _.
        exact (turn_passes_on_evidence _ _ _ _ _ _ _ _ Htest Hap Hturn Hap1).
      * destruct (auth_loop _ _ _ rest ap1 w1) as [[o2 w2] evs2] eqn:Hrest.
        intros [= <- <- <-] Ho Hr.
        destruct (IH _ _ _ _ _ Hap1 Hrest Ho Hr)
          as [(options & row & column & Hlast & H)
             |(token & secret & payload & Hlast & H)].
        -- left. exists options, row, column.
           split; [now apply last_app_nonempty|exact H].
        -- right. exists token, secret, payload.
           split; [now apply last_app_nonempty|exact H].
    + intros [= <- <- <-] [[=]|[= <-]] Hr.
      destruct (turn_returns_invalid _ _ _ _ _ _ _ _ Hturn). congruence.
    + intros [= <- <- <-] [[=]|[=]].
Qed.

(** X2. Outside the test environment, with rules configured, a valid result
    always rests on the last call of the run: either a [FIND] that fetched a
    row, whose non-empty column is the identity of the caller, or a token
    verification that resolved, whose [sub] is the identity. *)
Theorem passing_result_rests_on_last_call req w rules r :
  config_auth svc = Some rules -> Env_IsTest svc = false ->
  (auth svc req w).1.1 = Resolved r -> valid r = true ->
  (exists options row column,
      last (auth svc req w).2 = Some (EvFind options (Resolved (Some row))) /\
      user_identifier r = Some (prop row column) /\
      truthy (prop row column) = true) \/
  (exists token secret payload,
      last (auth svc req w).2 = Some (EvVerify token secret (Resolved payload)) /\
      user_identifier r = Some (prop payload "sub")).
Proof.
  intros Hrules Htest. rewrite (auth_configured req w rules Hrules).
  destruct (schema_getSchema _ _ _) as [[auth_schema|reason0] w0]; [|discriminate].
  destruct (auth_loop _ _ _ _ _ _) as [[o w1] evs] eqn:Hloop.
  assert (forall r', o = Next r' \/ o = Return_ r' -> valid r' = true ->
            (exists options row column,
                last (EvGetSchema (LLANA_AUTH_TABLE svc) (Resolved auth_schema) :: evs)
                = Some (EvFind options (Resolved (Some row))) /\
                user_identifier r' = Some (prop row column) /\
                truthy (prop row column) = true) \/
            (exists token secret payload,
                last (EvGetSchema (LLANA_AUTH_TABLE svc) (Resolved auth_schema) :: evs)
                = Some (EvVerify token secret (Resolved payload)) /\
                user_identifier r' = Some (prop payload "sub"))) as Hback.
  { intros r' Ho Hr'.
    destruct (loop_passes_on_evidence _ _ _ (failed "Unauthorized") _ _ _ _ _
                Htest eq_refl Hloop Ho Hr')
      as [(options & row & column & Hlast & H)
         |(token & secret & payload & Hlast & H)].
    - left. exists options, row, column. split; [|exact H].
      now apply (last_app_nonempty [_]).
    - right. exists token, secret, payload. split; [|exact H].
      now apply (last_app_nonempty [_]). }
  destruct o as [r'|r'|reason]; cbn; try discriminate;
    intros [= <-]; apply Hback; auto.
Qed.

(** X3. What [auth] resolves to is well formed: a valid result carries no
    message, and an invalid one always carries the message that the
    controller sends back. *)
Theorem auth_result_message req w r :
  (auth svc req w).1.1 = Resolved r ->
  if valid r then message r = None else exists msg, message r = Some msg.
Proof.
  assert (forall auth_schema rules ap w0 o w1 evs r',
             (if valid ap then message ap = None
              else exists msg, message ap = Some msg) ->
             auth_loop svc req auth_schema rules ap w0 = (o, w1, evs) ->
             o = Next r' \/ o = Return_ r' ->
             if valid r' then message r' = None
             else exists msg, message r' = Some msg) as Hloop.
  { intros auth_schema rules. induction rules as [|rule rest IH];
      intros ap w0 o w1 evs r' Hap.
    - cbn. intros [= <- <- <-] [[= <-]|[=]]. exact Hap.
    - rewrite auth_loop_cons.
      destruct (auth_rule _ _ _ _ _ _) as [[[ap1|r1|reason] w2] evs1] eqn:Hturn.
      + destruct (auth_loop _ _ _ rest ap1 w2) as [[o2 w3] evs2] eqn:Hrest.
        intros [= <- <- <-]. apply (IH ap1 w2 o2 w3 evs2 r'); [|assumption].
        destruct (turn_keeps_message _ _ _ _ _ _ _ _ Hturn)
          as [->|[[Hv Hm]|[Hv Hm]]]; [assumption|now rewrite Hv..].
      + intros [= <- <- <-] [[=]|[= <-]].
        destruct (turn_returns_invalid _ _ _ _ _ _ _ _ Hturn) as [Hv Hm].
        now rewrite Hv.
      + intros [= <- <- <-] [[=]|[=]]. }
  destruct (config_auth svc) as [rules|] eqn:Hrules.
  - rewrite (auth_configured req w rules Hrules).
    destruct (schema_getSchema _ _ _) as [[auth_schema|reason0] w0]; [|discriminate].
    destruct (auth_loop _ _ _ _ _ _) as [[o w1] evs] eqn:Hrun.
    assert (exists msg, message (failed "Unauthorized") = Some msg) as Hstart
        by (cbn; eauto).
    destruct o as [r'|r'|reason]; cbn; try discriminate; intros [= ->];
      apply (Hloop _ _ (failed "Unauthorized") _ _ _ _ r Hstart Hrun); auto.
  - unfold auth, settle. rewrite Hrules. cbn. now intros [= <-].
Qed.

(** *** Edge cases of the configuration and of the request *)



(** X6. An API-key rule that is dispatched, for a request without the key at
    the configured location, records the failed result that names the
    location and the parameter, in the test environment too, and makes no
    call after resolving its lookup table. *)
Theorem missing_key_names_location req auth_schema rule ap w nm loc schema :
  let turn := auth_rule svc req auth_schema rule ap w in
  type rule = Some AuthType.APIKEY ->
  present (name rule) = Some nm -> location rule = Some loc ->
  truthy (request_value req loc nm) = false ->
  EvGetSchema (table_name (table rule)) (Resolved schema) ∈ turn.2 ->
  turn.1.1 = Next (failed ("API key " +:+ location_word loc +:+ " " +:+ nm
                             +:+ " required")) /\
  last turn.2 = Some (EvGetSchema (table_name (table rule)) (Resolved schema)).
Proof.
  cbn zeta. intros Hty Hname Hloc Hkey.
  destruct (auth_rule _ _ _ _ _ _) as [[o w'] evs] eqn:Hrun. cbn.
  intros Hin.
  unfold auth_rule, api_key, bind, await, try_await, bind, ret, return_, throw in Hrun.
  rewrite Hty, Hname, Hloc in Hrun.
  destruct loc; cbn in Hkey; rewrite Hkey in Hrun;
    run_inv Hrun; in_inv Hin; split; reflexivity.
Qed.

Lemma lookups_need_production req auth_schema rule ap w e :
  e ∈ (auth_rule svc req auth_schema rule ap w).2 ->
  is_lookup e = true -> Env_IsTest svc = false.
Proof.
  destruct (auth_rule _ _ _ _ _ _) as [[o w'] evs] eqn:Hrun. cbn.
  intros Hin. turn Hrun; in_inv Hin; cbn; congruence.
Qed.

(** X10. In the test environment [auth] never reads the lookup table of an
    API-key rule, whatever is configured: no [validateFields] and no [FIND]
    is among its calls. *)
Theorem test_environment_never_looks_up req w e :
  Env_IsTest svc = true ->
  e ∈ (auth svc req w).2 ->
  is_lookup e = false.
Proof.
  intros Htest. destruct (config_auth svc) as [rules|] eqn:Hrules.
  - rewrite (auth_configured req w rules Hrules).
    destruct (schema_getSchema _ _ _) as [[auth_schema|reason] w0].
    + pose proof (event_of_turn req auth_schema rules
                                (failed "Unauthorized") w0 e) as Hturn.
      destruct (auth_loop _ _ _ _ _ _) as [[o w1] evs]. cbn in Hturn.
      assert (e ∈ EvGetSchema (LLANA_AUTH_TABLE svc) (Resolved auth_schema) :: evs ->
              is_lookup e = false) as Hall.
      { intros [->|Hin]%elem_of_cons; [reflexivity|].
        destruct (Hturn Hin) as (rule & ap & w2 & _ & He).
        destruct (is_lookup e) eqn:Hlookup; [|reflexivity].
        pose proof (lookups_need_production _ _ _ _ _ _ He Hlookup). congruence. }
      now destruct o.
    + cbn. intros Hin. in_inv Hin. reflexivity.
  - unfold auth, settle. rewrite Hrules. cbn. intros Hin. in_inv Hin.
Qed.

(** X11. Every [FIND] that [auth] performs is for a configured API-key rule
    and is filtered on the matching column of that rule being equal to the
    key read from the request, which is not empty; the only other clause is
    the null check on the soft-delete column, when one is configured. *)
Theorem lookup_filters_on_request_key req w rules options res :
  config_auth svc = Some rules ->
  EvFind options res ∈ (auth svc req w).2 ->
  exists rule nm loc column,
    rule ∈ rules /\ type rule = Some AuthType.APIKEY /\
    present (name rule) = Some nm /\ location rule = Some loc /\
    present (Authentication.column (table rule)) = Some column /\
    truthy (request_value req loc nm) = true /\
    fo_where options =
      {| w_column := column; w_operator := WhereOperator.equals;
         w_value := Some (request_value req loc nm) |}
        :: match present (config_soft svc) with
           | Some soft => [ {| w_column := soft; w_operator := WhereOperator.null;
                               w_value := None |} ]
           | None => []
           end.
Proof.
  intros Hrules. rewrite (auth_configured req w rules Hrules).
  destruct (schema_getSchema _ _ _) as [[auth_schema|reason] w0].
  - pose proof (event_of_turn req auth_schema rules
                              (failed "Unauthorized") w0 (EvFind options res)) as Hturn.
    destruct (auth_loop _ _ _ _ _ _) as [[o w1] evs]. cbn in Hturn.
    assert (EvFind options res
              ∈ EvGetSchema (LLANA_AUTH_TABLE svc) (Resolved auth_schema) :: evs ->
            EvFind options res ∈ evs) as Htail.
    { now intros [[=]|Hin]%elem_of_cons. }
    intros Hin.
    assert (EvFind options res ∈ evs) as Hevs by (destruct o; now apply Htail).
    destruct (Hturn Hevs) as (rule & ap & w2 & Hrule & He).
    destruct (auth_rule svc req auth_schema rule ap w2) as [[o2 w3] evs2] eqn:Hrun.
    destruct (lookup_inv _ _ _ _ _ _ _ _ _ _ _ Hrun He)
      as (_ & Hty & schema & nm & loc & col & fields & relations & H).
    destruct H as (_ & Hname & Hloc & Hcol & Hkey & -> & _).
    exists rule, nm, loc, col. repeat (split; [assumption|]).
    cbn [find_options fo_where]. now destruct (present (config_soft svc)).
  - cbn. intros Hin. in_inv Hin.
Qed.

End Runs.

End AuthenticationMore.

(** ** More on the update-by-id pipeline *)

Module PutControllerMore.
Import PutController PutControllerSpec.

Section Runs.
Context {W : Type}.
Variable svc : Services W.

(** Unfolds [updateById] in the equation [H] and splits it into its paths. *)
Ltac paths H :=
  unfold updateById, role_check, settle, bind, await, try_await, bind,
    ret, return_, throw in H;
  run_inv H.

(** X12. A call that fails its stage decides the answer: 404 with the
    reason for an unresolved schema; 401 with the message of the invalid
    authentication or permission; 400 with the message of the failed
    validation or uniqueness check, with "Record with id ... not found" for
    a missing record, and with the reason of a rejected update. *)
Theorem failing_call_decides_answer req id w e response :
  let run := updateById svc req id w in
  e ∈ run.2 -> fails e = true ->
  answer_of_failure id e = Some response ->
  run.1.1 = Resolved response.
Proof.
  cbn zeta. destruct (updateById svc req id w) as [[o w'] evs] eqn:Hrun. cbn.
  intros Hin. paths Hrun; in_inv Hin; cbn; intros Hfails; try congruence.
Qed.

(** X13. Only the schema resolution and the update are guarded by a [try].
    When authentication, the role authorizer, the data validator, the
    uniqueness check or the existence check rejects, no response is sent and
    [updateById] rejects with the same reason. *)
Theorem uncaught_rejection_escapes_update req id w e reason :
  let run := updateById svc req id w in
  e ∈ run.2 -> uncaught e = Some reason ->
  run.1.1 = Rejected reason.
Proof.
  cbn zeta. destruct (updateById svc req id w) as [[o w'] evs] eqn:Hrun. cbn.
  intros Hin. paths Hrun; in_inv Hin; cbn; congruence.
Qed.

(** X14. A request answered with 200 has been through this: the body was
    validated against the resolved schema, the uniqueness check was given
    the body as received and the id of the path, and the update, the last
    call, was given the id, the schema and the instance that validation
    made of the body; what is sent is the row the update resolved to. *)
Theorem success_writes_validated_instance req id w response :
  let run := updateById svc req id w in
  let x := headers req !! "x-request-id" in
  run.1.1 = Resolved response -> status response = 200 ->
  exists schema validate unique row,
    EvValidateData schema (body req) (Resolved validate) ∈ run.2 /\
    EvUnique {| uo_schema := schema; uo_data := body req; uo_id := id |} x
             (Resolved unique) ∈ run.2 /\
    last run.2 = Some (EvUpdate {| up_id := id; up_schema := schema;
                                   up_data := v_instance validate |} x
                                (Resolved row)) /\
    sent response = Json row.
Proof.
  cbn zeta. destruct (updateById svc req id w) as [[o w'] evs] eqn:Hrun. cbn.
  paths Hrun; intros [= <-]; cbn; try discriminate; intros _.
  all: eexists _, _, _, _; repeat split; in_list.
Qed.

(** X15. The role authorizer is consulted exactly for the callers that
    authentication identifies.  Every call to it carries the truthy
    identifier of the valid authentication result, the table of the URL and
    the access level WRITE; and a valid result with a truthy identifier is
    always followed by that call. *)
Theorem role_check_iff_identified req id w :
  let run := updateById svc req id w in
  let x := headers req !! "x-request-id" in
  let asked identifier :=
    {| tp_identifier := identifier;
       tp_table := UrlToTable svc (originalUrl req) 1;
       tp_access := RolePermission.WRITE;
       tp_x_request_id := x |} in
  (forall options res,
      EvTablePermission options res ∈ run.2 ->
      exists auth identifier,
        EvAuth req x (Resolved auth) ∈ run.2 /\ valid auth = true /\
        user_identifier auth = Some identifier /\ truthy identifier = true /\
        options = asked identifier) /\
  (forall auth identifier,
      EvAuth req x (Resolved auth) ∈ run.2 -> valid auth = true ->
      user_identifier auth = Some identifier -> truthy identifier = true ->
      exists res, EvTablePermission (asked identifier) res ∈ run.2).
Proof.
  cbn zeta. destruct (updateById svc req id w) as [[o w'] evs] eqn:Hrun. cbn.
  unfold updateById, role_check, identifier_of, settle, bind, await, try_await,
    bind, ret, return_, throw in Hrun.
  run_inv Hrun.
  all: split.
  all: try (intros options res Hin; in_inv Hin;
            (eexists _, _; split; [in_list|];
             split; [apply negb_false; eassumption|];
             split; [eassumption|]; split; [assumption|reflexivity])).
  all: intros auth identifier Hin Hvalid Hid Htruthy; in_inv Hin.
  all: try (rewrite Hvalid in *; discriminate).
  all: simplify_eq; try congruence.
  all: eexists; in_list.
Qed.

(** X16. The calls of a request stay on one table: the validations, the
    uniqueness check, the existence check and the update are all made with
    the schema that the first call resolved for the table of the URL, and
    every call that takes a request id is given the [x-request-id] header. *)
Theorem calls_stay_on_resolved_schema req id w e :
  let run := updateById svc req id w in
  let x := headers req !! "x-request-id" in
  e ∈ run.2 ->
  (forall schema,
      schema_of e = Some schema ->
      head run.2 = Some (EvGetSchema (UrlToTable svc (originalUrl req) 1) x
                                     (Resolved schema))) /\
  (forall x', request_id_of e = Some x' -> x' = x).
Proof.
  cbn zeta. destruct (updateById svc req id w) as [[o w'] evs] eqn:Hrun. cbn.
  intros Hin. paths Hrun; in_inv Hin; cbn; split; congruence.
Qed.

(** X17. The status of a response is 200, 400, 401 or 404.  It is 404
    exactly when the schema of the table could not be resolved, the only
    call then made; it is 401 exactly when the last call is the
    authentication or the role check and is invalid. *)
Theorem status_classification req id w response :
  let run := updateById svc req id w in
  run.1.1 = Resolved response ->
  (status response = 200 \/ status response = 400 \/
   status response = 401 \/ status response = 404) /\
  (status response = 404 <->
   exists table x reason, run.2 = [EvGetSchema table x (Rejected reason)]) /\
  (status response = 401 <->
   exists e, last run.2 = Some e /\ fails e = true /\
             (stage_of e = AuthenticationStage \/ stage_of e = RoleAuthorization)).
Proof.
  cbn zeta. destruct (updateById svc req id w) as [[o w'] evs] eqn:Hrun. cbn.
  paths Hrun; intros [= <-]; cbn.
  all: split; [tauto|].
  all: split; split.
  all: first
    [ intros Hstatus; discriminate Hstatus
    | intros _; eexists _, _, _; reflexivity
    | intros _; eexists; split; [reflexivity|]; cbn; split; [assumption|tauto]
    | intros (? & ? & ? & Htr); first [discriminate Htr|reflexivity]
    | intros (? & Hlast & Hfails & Hstage); cbn in Hlast; injection Hlast as <-;
      first [reflexivity|destruct Hstage; discriminate] ].
Qed.

End Runs.

End PutControllerMore.

(** ** More runs on concrete requests *)

Module AuthenticationMoreRuns.
Import Authentication AuthenticationSpec AuthenticationMore Scenario.

(** [Bearer good forged]: the token is [good], the second word. *)
Lemma bearer_token_is_second_word_witness :
  bearer_token (request {[ "authorization" := "Bearer good forged" ]}) = Some "good".
Proof.
  refine (proj2 (bearer_token_is_second_word
                   (request {[ "authorization" := "Bearer good forged" ]})
                   "Bearer good forged" _)
                "Bearer" "good" "forged" _ _ _).
  - reflexivity.
  - reflexivity.
  - reflexivity.
  - right. reflexivity.
Defined.

(** The lookup table of the first rule does not exist: the API-key rule
    after it is not tried. *)
Lemma unresolved_table_ends_auth_witness :
  (auth (auth_services false (Some [ghost_rule; api_key_rule]) [] None)
        with_api_key 0).1.1
  = Resolved (failed "No Schema Found For Table ghosts").
Proof.
  refine (proj2 (unresolved_table_ends_auth
                   (auth_services false (Some [ghost_rule; api_key_rule]) [] None)
                   with_api_key 0 [_; _] "ghosts" "Table not found" [] _)).
  vm_compute. reflexivity.
Defined.

(** The query engine is down when the key is looked up. *)
Lemma uncaught_rejection_escapes_auth_witness :
  (auth (with_find_down (auth_services false (Some [api_key_rule]) [] None))
        with_api_key 0).1.1
  = Rejected "connection lost".
Proof.
  refine (proj2 (uncaught_rejection_escapes_auth
                   (with_find_down (auth_services false (Some [api_key_rule]) [] None))
                   with_api_key 0 [_; _; _; _] (EvFind _ (Rejected "connection lost"))
                   [] "connection lost" _ _)).
  - vm_compute. reflexivity.
  - reflexivity.
Defined.

(** The key of the request is found: the identity is the [id] of the row. *)
Lemma passing_result_rests_on_last_call_witness :
  let svc := auth_services false (Some [api_key_rule]) [] (Some user_with_key) in
  exists options,
    last (auth svc with_api_key 0).2
    = Some (EvFind options (Resolved (Some user_with_key))).
Proof.
  cbn zeta.
  destruct (passing_result_rests_on_last_call
              (auth_services false (Some [api_key_rule]) [] (Some user_with_key))
              with_api_key 0 [api_key_rule] (identified (JNum 7))
              eq_refl eq_refl eq_refl eq_refl)
    as [(options & row & column & Hlast & _)|(token & secret & payload & Hlast & _)].
  - exists options. rewrite Hlast. f_equal. f_equal.
    vm_compute in Hlast. now injection Hlast as _ <-.
  - vm_compute in Hlast. discriminate Hlast.
Defined.

(** A request without credentials is refused with a message. *)
Lemma auth_result_message_witness :
  exists msg, message (failed "JWT token required") = Some msg.
Proof.
  exact (auth_result_message (auth_services false (Some [jwt_rule]) [] None)
                             anonymous 0 (failed "JWT token required") eq_refl).
Defined.

(** The request has no [x-api-key] header. *)
Lemma missing_key_names_location_witness :
  (auth_rule (auth_services false None [] None) anonymous auth_table api_key_rule
             (failed "Unauthorized") 1).1.1
  = Next (failed "API key header x-api-key required").
Proof.
  refine (proj1 (missing_key_names_location
                   (auth_services false None [] None) anonymous auth_table
                   api_key_rule (failed "Unauthorized") 1
                   "x-api-key" AuthLocation.HEADER users _ _ _ _ _)).
  - reflexivity.
  - reflexivity.
  - reflexivity.
  - reflexivity.
  - found.
Defined.

(** In the test environment the schema of the lookup table is still
    resolved, and that is not a lookup. *)
Lemma test_environment_never_looks_up_witness :
  is_lookup (EvGetSchema "users" (Resolved users)) = false.
Proof.
  refine (test_environment_never_looks_up
            (auth_services true (Some [api_key_rule]) [] None) with_api_key 0
            (EvGetSchema "users" (Resolved users)) _ _).
  - reflexivity.
  - found.
Defined.

(** The lookup for the key [k1] of the request. *)
Lemma lookup_filters_on_request_key_witness :
  let svc := auth_services false (Some [api_key_rule]) [] None in
  exists options,
    EvFind options (Resolved None) ∈ (auth svc with_api_key 0).2 /\
    fo_where options = [ {| w_column := "UserApiKey.apiKey";
                            w_operator := WhereOperator.equals;
                            w_value := Some (JStr "k1") |} ].
Proof.
  cbn zeta.
  assert (exists options,
             EvFind options (Resolved None)
               ∈ (auth (auth_services false (Some [api_key_rule]) [] None)
                       with_api_key 0).2) as [options Hin]
      by (eexists; found).
  exists options. split; [exact Hin|].
  destruct (lookup_filters_on_request_key
              (auth_services false (Some [api_key_rule]) [] None)
              with_api_key 0 [api_key_rule] options (Resolved None) eq_refl Hin)
    as (rule & nm & loc & column & Hrule & _ & Hname & Hloc & Hcol & _ & ->).
  apply list_elem_of_singleton in Hrule as ->.
  injection Hname as <-. injection Hloc as <-. injection Hcol as <-.
  reflexivity.
Defined.

End AuthenticationMoreRuns.

Module PutControllerMoreRuns.
Import PutController PutControllerSpec PutControllerMore Scenario.

(** Authentication says Unauthorized: 401 with that message. *)
Lemma failing_call_decides_answer_witness :
  (updateById (put_services (Some "id") (Authentication.failed "Unauthorized")
                            None None) anonymous "42" 0).1.1
  = Resolved {| status := 401; sent := Text (Some "Unauthorized") |}.
Proof.
  refine (failing_call_decides_answer
            (put_services (Some "id") (Authentication.failed "Unauthorized") None None)
            anonymous "42" 0
            (EvAuth anonymous None (Resolved (Authentication.failed "Unauthorized")))
            _ _ _ _).
  - found.
  - reflexivity.
  - reflexivity.
Defined.

(** The role authorizer is down for an identified caller. *)
Lemma uncaught_rejection_escapes_update_witness :
  (updateById (with_roles_down
                 (put_services (Some "id") (Authentication.identified (JNum 7))
                               None None)) anonymous "42" 0).1.1
  = Rejected "roles table unreachable".
Proof.
  refine (uncaught_rejection_escapes_update
            (with_roles_down
               (put_services (Some "id") (Authentication.identified (JNum 7))
                             None None))
            anonymous "42" 0
            (EvTablePermission _ (Rejected "roles table unreachable"))
            "roles table unreachable" _ _).
  - found.
  - reflexivity.
Defined.

(** The update of row 42 goes through. *)
Lemma success_writes_validated_instance_witness :
  let svc := put_services (Some "id") Authentication.passed None (Some user_with_key) in
  exists schema validate unique row,
    EvValidateData schema (body anonymous) (Resolved validate)
      ∈ (updateById svc anonymous "42" 0).2 /\
    EvUnique {| uo_schema := schema; uo_data := body anonymous; uo_id := "42" |}
             (headers anonymous !! "x-request-id") (Resolved unique)
      ∈ (updateById svc anonymous "42" 0).2 /\
    last (updateById svc anonymous "42" 0).2
    = Some (EvUpdate {| up_id := "42"; up_schema := schema;
                        up_data := v_instance validate |}
                     (headers anonymous !! "x-request-id") (Resolved row)) /\
    sent {| status := 200; sent := Json (body anonymous) |} = Json row.
Proof.
  exact (success_writes_validated_instance
           (put_services (Some "id") Authentication.passed None (Some user_with_key))
           anonymous "42" 0 {| status := 200; sent := Json (body anonymous) |}
           eq_refl eq_refl).
Defined.

(** The existence check of a request without [x-request-id]. *)
Lemma calls_stay_on_resolved_schema_witness :
  let svc := put_services (Some "id") Authentication.passed None None in
  head (updateById svc anonymous "42" 0).2
  = Some (EvGetSchema "users" None (Resolved users)).
Proof.
  cbn zeta.
  refine (proj1 (calls_stay_on_resolved_schema
                   (put_services (Some "id") Authentication.passed None None)
                   anonymous "42" 0
                   (EvFindOne {| fo_schema := users; fo_where := _ |} None
                              (Resolved None)) _) users eq_refl).
  found.
Defined.

(** A missing record is a 400, not a 401 nor a 404. *)
Lemma status_classification_witness :
  let svc := put_services (Some "id") Authentication.passed None None in
  ~ exists table x reason,
      (updateById svc anonymous "42" 0).2 = [EvGetSchema table x (Rejected reason)].
Proof.
  cbn zeta. intros Hex.
  apply (proj1 (proj2 (status_classification
                         (put_services (Some "id") Authentication.passed None None)
                         anonymous "42" 0
                         {| status := 400;
                            sent := Text (Some "Record with id 42 not found") |}
                         eq_refl))) in Hex.
  discriminate Hex.
Defined.

End PutControllerMoreRuns.
